(** * docker-py [Client]: stream framing and demultiplexing

    A shallow embedding of the attach / stream helpers of
    [docker/client.py] and the properties of the multiplexed stream
    protocol that they implement:

    - [_raise_for_status], [_result], [_get_raw_response_socket];
    - [_stream_helper], [_multiplexed_buffer_helper],
      [_multiplexed_response_stream_helper];
    - [attach].

    Python byte strings are lists of [byte]; Python integers are [Z];
    a generator is described by the ordered trace of what it does when it is
    pulled until it ends, together with the way it ends. *)

From Stdlib Require Import Strings.String Strings.Ascii Strings.Byte.
From Stdlib Require Import ZArith List Bool Lia.
Import ListNotations.
Local Open Scope Z_scope.

(** ** Byte strings and slices *)

Definition bytes := list byte.

Definition len {A : Type} (s : list A) : Z := Z.of_nat (length s).

(** Python's rule for one bound of a slice: a negative bound counts from the
    end, and the bound is then clamped to [0, len]. *)
Definition clamp_index (n i : Z) : Z :=
  if i <? 0 then Z.max (i + n) 0 else Z.min i n.

(** [s[i:]] *)
Definition slice_from {A : Type} (s : list A) (i : Z) : list A :=
  skipn (Z.to_nat (clamp_index (len s) i)) s.

(** [s[i:j]] *)
Definition slice {A : Type} (s : list A) (i j : Z) : list A :=
  let lo := clamp_index (len s) i in
  let hi := clamp_index (len s) j in
  firstn (Z.to_nat (hi - lo)) (skipn (Z.to_nat lo) s).

(** ** Exceptions and results *)

Inductive exn : Type :=
| APIError        (* errors.APIError, from _raise_for_status *)
| AssertionError  (* a failed assert *)
| StructError     (* struct.error: buffer of the wrong size *)
| ValueError.     (* a version string that is not a dotted number *)

Inductive result (A : Type) : Type :=
| Return (a : A)
| Raise (e : exn).
Arguments Return {A} a.
Arguments Raise {A} e.

Definition bind {A B : Type} (m : result A) (k : A -> result B) : result B :=
  match m with
  | Return a => k a
  | Raise e => Raise e
  end.

Notation "x <- m ;; k" := (bind m (fun x => k))
  (at level 61, m at next level, right associativity).

(** ** The [struct] format [>BxxxL] *)

Definition STREAM_HEADER_SIZE_BYTES : Z := 8.

Definition byte_to_Z (b : byte) : Z := Z.of_N (Byte.to_N b).

Definition byte_of_Z (z : Z) : byte :=
  match Byte.of_N (Z.to_N (z mod 256)) with
  | Some b => b
  | None => x00
  end.

(** A big-endian unsigned 32-bit integer ([>L]). *)
Definition be32 (b3 b2 b1 b0 : byte) : Z :=
  Z.lor (Z.shiftl (byte_to_Z b3) 24)
    (Z.lor (Z.shiftl (byte_to_Z b2) 16)
       (Z.lor (Z.shiftl (byte_to_Z b1) 8) (byte_to_Z b0))).

Definition pack_L (n : Z) : bytes :=
  [ byte_of_Z (Z.shiftr n 24); byte_of_Z (Z.shiftr n 16);
    byte_of_Z (Z.shiftr n 8); byte_of_Z n ].

(** [struct.unpack_from('>BxxxL', b)]: needs at least 8 bytes, reads the
    first 8. *)
Definition unpack_from_BxxxL (b : bytes) : result (Z * Z) :=
  match b with
  | t :: _ :: _ :: _ :: l3 :: l2 :: l1 :: l0 :: _ =>
      Return (byte_to_Z t, be32 l3 l2 l1 l0)
  | _ => Raise StructError
  end.

(** [struct.unpack('>BxxxL', b)]: needs exactly 8 bytes. *)
Definition unpack_BxxxL (b : bytes) : result (Z * Z) :=
  match b with
  | [t; _; _; _; l3; l2; l1; l0] => Return (byte_to_Z t, be32 l3 l2 l1 l0)
  | _ => Raise StructError
  end.

(** ** Frames and their wire encoding *)

Record Frame : Type := mkFrame {
  stream_type : byte;             (* channel tag *)
  reserved : byte * byte * byte;  (* not interpreted *)
  payload : bytes
}.

(** The length of a payload must fit the 4-byte length field. *)
Definition frame_ok (f : Frame) : Prop := len (payload f) < 2 ^ 32.

Definition encode_header (t : byte) (r : byte * byte * byte) (n : Z) : bytes :=
  let '(r1, r2, r3) := r in
  t :: r1 :: r2 :: r3 :: pack_L n.

Definition encode_frame (f : Frame) : bytes :=
  encode_header (stream_type f) (reserved f) (len (payload f)) ++ payload f.

Definition encode_frames (fs : list Frame) : bytes :=
  concat (map encode_frame fs).

(** ** Values, generators and the transport's response object *)

(** What [_result] hands back: the materialized body seen as parsed JSON
    ([response.json()]), as raw bytes ([response.content]) or as decoded text
    ([response.text]); a line of [response.iter_lines] is text too. *)
Inductive value : Type :=
| Json (body : bytes)
| Bytes (b : bytes)
| Text (b : bytes).

(** The socket object that [settimeout] is called on. *)
Inductive sock_target : Type :=
| RawSock       (* socket            (Python 2) *)
| InnerSock.    (* socket._sock      (Python 3) *)

(** One observable step of a generator, in program order. *)
Inductive action : Type :=
| SetTimeout (on : sock_target) (t : option Z)  (* None: no timeout *)
| Read (amt : Z) (data : bytes)                 (* reader.read(amt) -> data *)
| Emit (v : value).                             (* yield v *)

Inductive ending : Type :=
| Stop              (* the generator returns: StopIteration *)
| Raised (e : exn)  (* an exception escapes the generator *)
| Unfinished.       (* the model's step budget ran out *)

Record gen : Type := mkGen {
  actions : list action;
  ending_of : ending
}.

Definition act (a : action) (g : gen) : gen :=
  mkGen (a :: actions g) (ending_of g).

Fixpoint yielded_of (l : list action) : list value :=
  match l with
  | [] => []
  | Emit v :: l' => v :: yielded_of l'
  | _ :: l' => yielded_of l'
  end.

Definition yielded (g : gen) : list value := yielded_of (actions g).

(** The incremental reader [response.raw].  [segments] are the pieces in
    which the connection delivers the remaining bytes (the HTTP chunks of a
    chunked response); the end of the list is the end of the stream. *)
Record Reader : Type := mkReader {
  closed : bool;
  chunk_left : option Z;   (* unread rest of the current piece, if any *)
  segments : list bytes
}.

Record Response : Type := mkResponse {
  status_code : Z;
  content : bytes;        (* the materialized body *)
  lines : list bytes;     (* response.iter_lines(chunk_size=1, ...) *)
  chunked : bool;         (* response.raw._fp.chunked *)
  raw : Reader
}.

(** Contract of the transport's reader: [read(amt)] blocks until [amt]
    bytes have arrived or the stream has ended, whatever the pieces they
    arrive in; it returns fewer bytes only at the end of the stream, and the
    reader is closed once a read has met the end. *)
Fixpoint read_segments (amt : nat) (segs : list bytes)
  : bytes * option Z * list bytes * bool :=
  match amt with
  | O => ([], None, segs, false)
  | S _ =>
      match segs with
      | [] => ([], None, [], true)
      | s :: rest =>
          if (length s <=? amt)%nat then
            let '(d, cl, segs', eof) := read_segments (amt - length s) rest in
            (s ++ d, cl, segs', eof)
          else
            (firstn amt s, Some (len s - Z.of_nat amt), skipn amt s :: rest,
             false)
      end
  end.

(** [reader.read(amt)]; [amt] is 1, 8 or a declared length here, never
    negative. *)
Definition read (amt : Z) (r : Reader) : bytes * Reader :=
  let '(d, cl, segs', eof) := read_segments (Z.to_nat amt) (segments r) in
  (d, mkReader (closed r || eof) cl segs').

(** ** Helpers of [Client] *)

Definition finished (e : ending) : gen := mkGen [] e.

Definition is_empty {A : Type} (s : list A) : bool :=
  match s with [] => true | _ => false end.

Definition raw_of (v : value) : bytes :=
  match v with Json b | Bytes b | Text b => b end.

(** [response.raise_for_status()] raises for the 4xx and 5xx codes;
    [_raise_for_status] turns that into an [APIError]. *)
Definition is_http_error (response : Response) : bool :=
  (400 <=? status_code response) && (status_code response <? 600).

Definition _raise_for_status (response : Response) : result unit :=
  if is_http_error response then Raise APIError else Return tt.

Definition _result (response : Response) (json binary : bool) : result value :=
  if json && binary then Raise AssertionError
  else
    _ <- _raise_for_status response ;;
    if json then Return (Json (content response))
    else if binary then Return (Bytes (content response))
    else Return (Text (content response)).

(** The socket is reached through the response; the only effect that matters
    here is the status check. *)
Definition _get_raw_response_socket (response : Response) : result unit :=
  _ <- _raise_for_status response ;;
  Return tt.

(** The [while not reader.closed] loop of [_stream_helper]. *)
Fixpoint stream_helper_loop (fuel : nat) (reader : Reader) : gen :=
  match fuel with
  | O => finished Unfinished
  | S fuel' =>
      if closed reader then finished Stop
      else
        let '(data, reader1) := read 1 reader in
        act (Read 1 data)
          (if is_empty data then finished Stop
           else
             match chunk_left reader1 with
             | Some k =>
                 if k =? 0 then
                   act (Emit (Bytes data)) (stream_helper_loop fuel' reader1)
                 else
                   let '(more, reader2) := read k reader1 in
                   act (Read k more)
                     (act (Emit (Bytes (data ++ more)))
                        (stream_helper_loop fuel' reader2))
             | None =>
                 act (Emit (Bytes data)) (stream_helper_loop fuel' reader1)
             end)
  end.

Definition _stream_helper (response : Response) : gen :=
  if chunked response then
    stream_helper_loop (S (length (concat (segments (raw response)))))
      (raw response)
  else
    match _result response false false with
    | Return v => mkGen [Emit v] Stop
    | Raise e => finished (Raised e)
    end.

(** The [while True] loop of [_multiplexed_buffer_helper]. *)
Fixpoint buffer_loop (fuel : nat) (buf : bytes) (walker : Z) : gen :=
  match fuel with
  | O => finished Unfinished
  | S fuel' =>
      if len (slice_from buf walker) <? 8 then finished Stop
      else
        match unpack_from_BxxxL (slice_from buf walker) with
        | Raise e => finished (Raised e)
        | Return (_, length) =>
            let start := walker + STREAM_HEADER_SIZE_BYTES in
            let end_ := start + length in
            let walker := end_ in
            act (Emit (Bytes (slice buf start end_)))
              (buffer_loop fuel' buf walker)
        end
  end.

Definition _multiplexed_buffer_helper (response : Response) : gen :=
  match _result response false true with
  | Raise e => finished (Raised e)
  | Return v =>
      let buf := raw_of v in
      buffer_loop (S (length buf)) buf 0
  end.

(** The [while True] loop of [_multiplexed_response_stream_helper]. *)
Fixpoint response_stream_loop (fuel : nat) (reader : Reader) : gen :=
  match fuel with
  | O => finished Unfinished
  | S fuel' =>
      let '(header, reader1) := read STREAM_HEADER_SIZE_BYTES reader in
      act (Read STREAM_HEADER_SIZE_BYTES header)
        (if is_empty header then finished Stop
         else
           match unpack_BxxxL header with
           | Raise e => finished (Raised e)
           | Return (_, length) =>
               if length =? 0 then finished Stop
               else
                 let '(data, reader2) := read length reader1 in
                 act (Read length data)
                   (if is_empty data then finished Stop
                    else
                      act (Emit (Bytes data))
                        (response_stream_loop fuel' reader2))
           end)
  end.

Definition _multiplexed_response_stream_helper (PY3 : bool)
    (response : Response) : gen :=
  match _get_raw_response_socket response with
  | Raise e => finished (Raised e)
  | Return _ =>
      act (if PY3 then SetTimeout InnerSock None else SetTimeout RawSock None)
        (response_stream_loop
           (S (length (concat (segments (raw response))))) (raw response))
  end.

(** ** Protocol versions *)

Module Version.
Local Open Scope N_scope.

Definition digit_of (c : ascii) : option N :=
  let n := N_of_ascii c in
  if (48 <=? n) && (n <=? 57) then Some (n - 48) else None.

(** Splits a dotted number into its numeric components; [cur] is the
    component being read. *)
Fixpoint parse_components (s : string) (cur : option N) : option (list N) :=
  match s with
  | EmptyString =>
      match cur with
      | Some n => Some [n]
      | None => None
      end
  | String c s' =>
      if Ascii.eqb c "."%char then
        match cur with
        | Some n => option_map (cons n) (parse_components s' None)
        | None => None
        end
      else
        match digit_of c with
        | Some d =>
            parse_components s'
              (Some (10 * match cur with Some n => n | None => 0 end + d))
        | None => None
        end
  end.

Definition parse (s : string) : option (list N) := parse_components s None.

Fixpoint all_zero (l : list N) : bool :=
  match l with
  | [] => true
  | x :: l' => (x =? 0) && all_zero l'
  end.

(** Numeric comparison, component by component; a missing component
    counts as 0. *)
Fixpoint compare (a b : list N) : comparison :=
  match a, b with
  | [], _ => if all_zero b then Eq else Lt
  | _, [] => if all_zero a then Eq else Gt
  | x :: a', y :: b' =>
      match x ?= y with
      | Eq => compare a' b'
      | c => c
      end
  end.
End Version.

(** Modelled from the spec: [utils.compare_version] is defined in
    [docker/utils], outside this file.  A version is a dotted number and
    versions are compared numerically per component.  The sign follows the
    callers in [client.py] ("host_config is not supported in API < 1.15" is
    raised when [compare_version('1.15', self._version) < 0]): the result is
    negative when the second version is the older one, positive when it is
    the newer one, and 0 when they are equal. *)
Definition compare_version (v1 v2 : string) : result Z :=
  match Version.parse v1, Version.parse v2 with
  | Some s1, Some s2 =>
      match Version.compare s1 s2 with
      | Eq => Return 0
      | Gt => Return (-1)
      | Lt => Return 1
      end
  | _, _ => Raise ValueError
  end.

(** ** [attach] *)

(** What a call gives back to its caller. *)
Inductive returned : Type :=
| Generator (g : gen)   (* a generator object, not yet pulled *)
| Value (v : value)
| Exception (e : exn)
| NoReturn.             (* the model's step budget ran out *)

(** The nested generator [stream_result] of the old-style path. *)
Definition stream_result (response : Response) : gen :=
  match _raise_for_status response with
  | Raise e => finished (Raised e)
  | Return _ =>
      mkGen
        (map (fun line => Emit (Text line))
           (filter (fun line => negb (is_empty line)) (lines response)))
        Stop
  end.

(** [sep.join([x for x in g])] *)
Definition join_all (g : gen) : returned :=
  match ending_of g with
  | Stop => Value (Bytes (concat (map raw_of (yielded g))))
  | Raised e => Exception e
  | Unfinished => NoReturn
  end.

Definition of_result (r : result value) : returned :=
  match r with
  | Return v => Value v
  | Raise e => Exception e
  end.

(** [attach], given the response that [self._post(u, params=params,
    stream=stream)] returned. *)
Definition attach (PY3 : bool) (_version : string)
    (response : Response) (stream : bool) : returned :=
  match compare_version "1.6"%string _version with
  | Raise e => Exception e
  | Return c =>
      if c <? 0 then
        if stream then Generator (stream_result response)
        else of_result (_result response false true)
      else if stream then
        Generator (_multiplexed_response_stream_helper PY3 response)
      else
        join_all (_multiplexed_buffer_helper response)
  end.

(** The core operations under the names the specification gives them. *)
Definition demultiplexBuffered (response : Response) : returned :=
  join_all (_multiplexed_buffer_helper response).

Definition demultiplexLive (PY3 : bool) (response : Response) : gen :=
  _multiplexed_response_stream_helper PY3 response.

Definition rawChunkedIterate (response : Response) : gen :=
  _stream_helper response.

(** ** Traces and streams, for the statements *)

(** The actions [l], then the generator [g]. *)
Definition prepend (l : list action) (g : gen) : gen :=
  mkGen (l ++ actions g) (ending_of g).

Definition emits (chunks : list bytes) : list action :=
  map (fun c => Emit (Bytes c)) chunks.

Definition is_settimeout (a : action) : bool :=
  match a with SetTimeout _ _ => true | _ => false end.

Definition header_of (f : Frame) : bytes :=
  encode_header (stream_type f) (reserved f) (len (payload f)).

(** What the live loop does for one complete frame with a payload. *)
Definition frame_trace (f : Frame) : list action :=
  [ Read STREAM_HEADER_SIZE_BYTES (header_of f);
    Read (len (payload f)) (payload f);
    Emit (Bytes (payload f)) ].

Definition live_trace (fs : list Frame) : list action :=
  flat_map frame_trace fs.

Definition nonempty_payload (f : Frame) : Prop := payload f <> [].

(** The chunks up to the first empty one. *)
Fixpoint until_empty (chunks : list bytes) : list bytes :=
  match chunks with
  | [] => []
  | c :: chunks' => if is_empty c then [] else c :: until_empty chunks'
  end.

(** The payload bytes present in a truncated tail: nothing for a partial
    header, the bytes that follow the header when fewer than the declared
    length are there.  [None] when the tail holds a whole frame. *)
Definition truncated_tail (T : bytes) : option bytes :=
  if len T <? 8 then Some []
  else
    match unpack_from_BxxxL T with
    | Return (_, n) =>
        if len T - 8 <? n then Some (skipn 8 T) else None
    | Raise _ => None
    end.

(** ** Test data *)

Definition bytes_of_string (s : string) : bytes :=
  list_byte_of_string s.

Definition ok_response (body : bytes) (segs : list bytes) : Response :=
  mkResponse 200 body [] false (mkReader false None segs).

Definition hello : Frame :=
  mkFrame x01 (x00, x00, x00) (bytes_of_string "hello "%string).

Definition world : Frame :=
  mkFrame x01 (x00, x00, x00) (bytes_of_string "world"%string).

Definition partial_world : bytes :=
  encode_header x01 (x00, x00, x00) 5 ++ bytes_of_string "wo"%string.

(** The encoding of [hello; world], delivered in two pieces cut inside the
    first header. *)
Definition hello_world_segments : list bytes :=
  [ firstn 3 (encode_frames [hello; world]);
    skipn 3 (encode_frames [hello; world]) ].

(** A frame of declared length 0, and a stream where it sits between two
    ordinary frames. *)
Definition terminator : Frame := mkFrame x02 (x00, x00, x00) [].

Definition terminated_stream : bytes :=
  encode_frames [hello; terminator; world].

(** A plain, not chunked, error answer of the daemon. *)
Definition error_response : Response :=
  mkResponse 404 (bytes_of_string "No such container"%string) [] false
    (mkReader false None []).

(** A chunked text answer: the line a, an empty line, the line b. *)
Definition text_body : bytes := [x61; x0a; x0a; x62; x0a].


(** [hello] on the other channel. *)
Definition hello_stderr : Frame :=
  mkFrame x02 (x00, x00, x00) (bytes_of_string "hello "%string).

(** * Callers and request building *)

(** ** Python values and dictionaries *)

#[warnings="-register-all"]
Inductive pv : Type :=
| PNone
| PBool (b : bool)
| PInt (z : Z)
| PStr (s : string)
| PList (l : list pv)
| PDict (d : list (string * pv)).

(** A dictionary with string keys, in insertion order. *)
Definition dict (V : Type) : Type := list (string * V).

Fixpoint dict_get {V : Type} (k : string) (d : dict V) : option V :=
  match d with
  | [] => None
  | (k', v) :: d' => if String.eqb k k' then Some v else dict_get k d'
  end.

(** [d[k] = v] *)
Fixpoint dict_set {V : Type} (k : string) (v : V) (d : dict V) : dict V :=
  match d with
  | [] => [(k, v)]
  | (k', v') :: d' =>
      if String.eqb k k' then (k, v) :: d' else (k', v') :: dict_set k v d'
  end.

Definition is_none (v : pv) : bool :=
  match v with PNone => true | _ => false end.

(** [x and 1 or 0] *)
Definition one_or_zero (x : bool) : pv := if x then PInt 1 else PInt 0.

(** Errors of the callers, on top of those of the stream helpers. *)
Inductive error : Type :=
| Core (e : exn)
| TypeError
| KeyError
| DockerException.

Inductive outcome (A : Type) : Type :=
| Ok (a : A)
| Err (e : error).
Arguments Ok {A} a.
Arguments Err {A} e.

(** ** Requests *)

Inductive body : Type :=
| JsonDumps (d : dict pv)   (* json.dumps(d) *)
| Raw (b : bytes).

(** The keyword arguments given to [requests]: [None] is a keyword that is
    not passed, [Some x] one that is passed with the value [x] (itself
    [None] for Python's None where that can be passed). *)
Record Kwargs : Type := mkKwargs {
  kw_params : option (dict pv);
  kw_data : option (option body);
  kw_headers : option (option (dict string));
  kw_stream : option bool;
  kw_timeout : option (option Z)
}.

Record Request : Type := mkRequest {
  req_method : string;
  req_url : string;
  req_kwargs : Kwargs
}.

Record Client : Type := mkClient {
  base_url : string;
  timeout : option Z;
  _version : string
}.

(** [kwargs.setdefault('timeout', self.timeout)] *)
Definition _set_request_timeout (self : Client) (kwargs : Kwargs) : Kwargs :=
  match kw_timeout kwargs with
  | Some _ => kwargs
  | None =>
      mkKwargs (kw_params kwargs) (kw_data kwargs) (kw_headers kwargs)
        (kw_stream kwargs) (Some (timeout self))
  end.

Definition _url (self : Client) (path : string) : string :=
  (base_url self ++ "/v" ++ _version self ++ path)%string.

(** [data2]: the entries of [data] whose value is not None. *)
Definition without_none (data : option (dict pv)) : dict pv :=
  match data with
  | None => []
  | Some d =>
      fold_left
        (fun data2 kv => if is_none (snd kv) then data2
                         else dict_set (fst kv) (snd kv) data2)
        d []
  end.

(** The request that [_post_json] hands to [self._post]; its own [data]
    argument takes the place of any [data] keyword. *)
Definition post_json_kwargs (data : option (dict pv)) (kwargs : Kwargs)
  : outcome Kwargs :=
  let data2 := without_none data in
  let kwargs :=
    match kw_headers kwargs with
    | None =>
        mkKwargs (kw_params kwargs) (kw_data kwargs) (Some (Some []))
          (kw_stream kwargs) (kw_timeout kwargs)
    | Some _ => kwargs
    end in
  match kw_headers kwargs with
  | Some (Some h) =>
      Ok (mkKwargs (kw_params kwargs) (Some (Some (JsonDumps data2)))
            (Some (Some (dict_set "Content-Type"%string
                           "application/json"%string h)))
            (kw_stream kwargs) (kw_timeout kwargs))
  | _ => Err TypeError   (* None['Content-Type'] = ... *)
  end.

(** [tail != 'all' and (not isinstance(tail, int) or tail <= 0)] *)
Definition tail_is_reset (tail : pv) : bool :=
  negb (match tail with
        | PStr s => String.eqb s "all"%string
        | _ => false
        end)
  && match tail with
     | PInt z => z <=? 0
     | PBool b => (if b then 1 else 0) <=? 0
     | _ => true
     end.

Section Transport.

(** [send] is the exchange itself ([requests.Session.request]); [format_]
    is what [str.format] prints for a value. *)
Variable send : Request -> Response.
Variable format_ : pv -> string.

Definition _post (self : Client) (url : string) (kwargs : Kwargs)
  : Response :=
  send (mkRequest "POST"%string url (_set_request_timeout self kwargs)).

Definition _get (self : Client) (url : string) (kwargs : Kwargs)
  : Response :=
  send (mkRequest "GET"%string url (_set_request_timeout self kwargs)).

Definition _post_json (self : Client) (url : string)
    (data : option (dict pv)) (kwargs : Kwargs) : outcome Response :=
  match post_json_kwargs data kwargs with
  | Ok kwargs' => Ok (_post self url kwargs')
  | Err e => Err e
  end.

(** [container.get('Id')] for a dictionary, the argument itself otherwise. *)
Definition container_id (container : pv) : pv :=
  match container with
  | PDict d =>
      match dict_get "Id"%string d with
      | Some v => v
      | None => PNone
      end
  | _ => container
  end.

(** The request of [attach]. *)
Definition attach_request (self : Client) (container : pv)
    (stdout stderr stream logs : bool) : Request :=
  let container := container_id container in
  let params :=
    [ ("logs"%string, one_or_zero logs);
      ("stdout"%string, one_or_zero stdout);
      ("stderr"%string, one_or_zero stderr);
      ("stream"%string, one_or_zero stream) ] in
  let u :=
    _url self ("/containers/" ++ format_ container ++ "/attach")%string in
  mkRequest "POST"%string u
    (_set_request_timeout self
       (mkKwargs (Some params) None None (Some stream) None)).

(** The request of [logs] for API 1.11 and later, with the unwrapping of
    [container] that [logs] starts with; [c13] is what
    [compare_version('1.13', self._version)] returned. *)
Definition logs_request (self : Client) (container : pv)
    (stdout stderr stream timestamps : bool) (tail : pv) (c13 : Z)
  : Request :=
  let container := container_id container in
  let params :=
    [ ("stderr"%string, one_or_zero stderr);
      ("stdout"%string, one_or_zero stdout);
      ("timestamps"%string, one_or_zero timestamps);
      ("follow"%string, one_or_zero stream) ] in
  let params :=
    if c13 >=? 0 then
      let tail := if tail_is_reset tail then PStr "all"%string else tail in
      dict_set "tail"%string tail params
    else params in
  let url :=
    _url self ("/containers/" ++ format_ container ++ "/logs")%string in
  mkRequest "GET"%string url
    (_set_request_timeout self
       (mkKwargs (Some params) None None (Some stream) None)).

Definition logs (PY3 : bool) (self : Client) (container : pv)
    (stdout stderr stream timestamps : bool) (tail : pv) : returned :=
  match compare_version "1.11"%string (_version self) with
  | Raise e => Exception e
  | Return c11 =>
      if c11 >=? 0 then
        match compare_version "1.13"%string (_version self) with
        | Raise e => Exception e
        | Return c13 =>
            let res :=
              send (logs_request self container stdout stderr stream
                      timestamps tail c13) in
            if stream then
              Generator (_multiplexed_response_stream_helper PY3 res)
            else if PY3 then join_all (_multiplexed_buffer_helper res)
            else join_all (_multiplexed_buffer_helper res)
        end
      else
        (* [container] was unwrapped by [logs]; [attach] unwraps again *)
        attach PY3 (_version self)
          (send
             (attach_request self (container_id container) stdout stderr
                stream true))
          stream
  end.

End Transport.

(** ** [_container_config]: the memory limit *)

(** [str.lower] and [str.isdigit] of one character, as they are on the ASCII
    characters (codes below 128); on these they are the same for byte
    strings and for text. *)
Definition lower (c : ascii) : ascii :=
  let n := nat_of_ascii c in
  if ((65 <=? n) && (n <=? 90))%nat then ascii_of_nat (n + 32) else c.

Definition isdigit (c : ascii) : bool :=
  let n := nat_of_ascii c in ((48 <=? n) && (n <=? 57))%nat.

Definition units (suffix : ascii) : option Z :=
  if Ascii.eqb suffix "b"%char then Some 1
  else if Ascii.eqb suffix "k"%char then Some 1024
  else if Ascii.eqb suffix "m"%char then Some (1024 * 1024)
  else if Ascii.eqb suffix "g"%char then Some (1024 * 1024 * 1024)
  else None.

(** [s[-1]] and [s[:-1]] of a string that is not empty. *)
Fixpoint last_char (s : string) : option ascii :=
  match s with
  | EmptyString => None
  | String c EmptyString => Some c
  | String _ s' => last_char s'
  end.

Fixpoint all_but_last (s : string) : string :=
  match s with
  | EmptyString => EmptyString
  | String c EmptyString => EmptyString
  | String c s' => String c (all_but_last s')
  end.

(** The [mem_limit] block of [_container_config]; [int_] is Python's
    [int], [None] standing for its [ValueError]. *)
Definition mem_limit_config (int_ : string -> option Z) (mem_limit : pv)
  : outcome pv :=
  match mem_limit with
  | PStr s =>
      match last_char s with
      | None => Ok (PInt 0)
      | Some c =>
          let suffix := lower c in
          let '(digits_part, suffix) :=
            if isdigit suffix then (s, "b"%char)
            else (all_but_last s, suffix) in
          match units suffix with
          | Some u =>
              match int_ digits_part with
              | Some digits => Ok (PInt (digits * u))
              | None => Err DockerException
              end
          | None =>
              if isdigit suffix then
                match int_ digits_part with
                | Some _ => Err KeyError
                | None => Err DockerException
                end
              else Err DockerException
          end
      end
  | _ => Ok mem_limit
  end.

(** ** [build]: what is made of the response *)

Definition hexdigit (b : byte) : bool :=
  let n := Byte.to_N b in
  ((48 <=? n) && (n <=? 57) || (97 <=? n) && (n <=? 102))%N.

Definition built_marker : bytes :=
  bytes_of_string "Successfully built "%string.

Fixpoint strip_prefix (p s : bytes) : option bytes :=
  match p, s with
  | [], _ => Some s
  | a :: p', b :: s' => if Byte.eqb a b then strip_prefix p' s' else None
  | _ :: _, [] => None
  end.

Fixpoint take_hex (s : bytes) : bytes :=
  match s with
  | b :: s' => if hexdigit b then b :: take_hex s' else []
  | [] => []
  end.

(** A match of [Successfully built ([0-9a-f]+)] that starts here. *)
Definition match_built (s : bytes) : option bytes :=
  match strip_prefix built_marker s with
  | Some rest =>
      match take_hex rest with
      | [] => None
      | group1 => Some group1
      end
  | None => None
  end.

(** [re.search(r'Successfully built ([0-9a-f]+)', s)], giving [group(1)]
    of the leftmost match. *)
Fixpoint search_built (s : bytes) : option bytes :=
  match match_built s with
  | Some group1 => Some group1
  | None =>
      match s with
      | [] => None
      | _ :: s' => search_built s'
      end
  end.

Inductive build_return : Type :=
| BuildStream (g : gen)
| BuildResult (image_id : option bytes) (output : value)
| BuildRaise (e : exn).

(** The end of [build], from the response on; [stream] is already forced to
    True for API 1.8 and later. *)
Definition build_result (stream : bool) (response : Response)
  : build_return :=
  if stream then BuildStream (_stream_helper response)
  else
    match _result response false false with
    | Raise e => BuildRaise e
    | Return output =>
        match search_built (raw_of output) with
        | None => BuildResult None output
        | Some group1 => BuildResult (Some group1) output
        end
    end.

(** ** More test data *)

(** A chunked answer with an error status. *)
Definition chunked_error_response : Response :=
  mkResponse 500 text_body [] true (mkReader false None [[x61]; [x62; x0a]]).

Definition client_1_17 : Client :=
  mkClient "http://localhost:2375"%string (Some 60) "1.17"%string.

Definition echo_send (req : Request) : Response :=
  ok_response (bytes_of_string (req_url req)) [].

Definition plain_format (v : pv) : string :=
  match v with PStr s => s | _ => "None"%string end.

(** The output of a build that went well. *)
Definition build_log : bytes :=
  bytes_of_string "Step 0 : FROM busybox"%string ++ [x0a]
  ++ built_marker ++ bytes_of_string "3f2a"%string ++ [x0a].

(** Decimal digits only; enough of [int] for the examples. *)
Definition int_of_digits (s : string) : option Z :=
  match s with
  | EmptyString => None
  | _ =>
      fold_left
        (fun acc c =>
           match acc with
           | Some n =>
               if isdigit c
               then Some (10 * n + Z.of_nat (nat_of_ascii c - 48))
               else None
           | None => None
           end)
        (list_ascii_of_string s) (Some 0)
  end.

(** * Properties *)

(** ** Bytes and the length field *)

Lemma byte_to_Z_range (b : byte) : 0 <= byte_to_Z b < 256.
Proof.
  unfold byte_to_Z. pose proof (Byte.to_N_bounded b). lia.
Qed.

Lemma byte_to_of_Z (z : Z) : byte_to_Z (byte_of_Z z) = z mod 256.
Proof.
  unfold byte_to_Z, byte_of_Z.
  assert (Hr : 0 <= z mod 256 < 256) by (apply Z.mod_pos_bound; lia).
  destruct (Byte.of_N (Z.to_N (z mod 256))) as [b|] eqn:E.
  - apply Byte.to_of_N in E. rewrite E. lia.
  - apply Byte.of_N_None_iff in E. lia.
Qed.

Lemma testbit_byte_of_Z (n i : Z) :
  Z.testbit (byte_to_Z (byte_of_Z n)) i = (i <? 8) && Z.testbit n i.
Proof.
  rewrite byte_to_of_Z. change 256 with (2 ^ 8).
  apply Z.testbit_mod_pow2. lia.
Qed.

Lemma testbit_byte_of_shiftr (n k i : Z) :
  0 <= k -> 0 <= i ->
  Z.testbit (byte_to_Z (byte_of_Z (Z.shiftr n k))) i
  = (i <? 8) && Z.testbit n (i + k).
Proof.
  intros Hk Hi. rewrite testbit_byte_of_Z.
  rewrite Z.shiftr_spec by lia. reflexivity.
Qed.

Lemma be32_pack_L (n : Z) :
  0 <= n < 2 ^ 32 ->
  be32 (byte_of_Z (Z.shiftr n 24)) (byte_of_Z (Z.shiftr n 16))
       (byte_of_Z (Z.shiftr n 8)) (byte_of_Z n) = n.
Proof.
  intros Hn. apply Z.bits_inj'. intros i Hi. unfold be32.
  rewrite !Z.lor_spec.
  assert (Hhigh : 32 <= i -> Z.testbit n i = false).
  { intros H. rewrite <- (Z.mod_small n (2 ^ 32)) by lia.
    rewrite Z.testbit_mod_pow2 by lia.
    destruct (Z.ltb_spec i 32); [lia | reflexivity]. }
  assert (Hsh : forall k, 0 <= k ->
            Z.testbit (Z.shiftl (byte_to_Z (byte_of_Z (Z.shiftr n k))) k) i
            = (k <=? i) && (i <? k + 8) && Z.testbit n i).
  { intros k Hk. rewrite Z.shiftl_spec by lia.
    destruct (Z.leb_spec k i).
    - rewrite testbit_byte_of_shiftr by lia.
      replace (i - k + k) with i by lia.
      destruct (Z.ltb_spec (i - k) 8), (Z.ltb_spec i (k + 8)); simpl; try lia;
        reflexivity.
    - rewrite Z.testbit_neg_r by lia. reflexivity. }
  rewrite !Hsh by lia.
  rewrite testbit_byte_of_Z.
  destruct (Z.testbit n i) eqn:E.
  2: { rewrite !andb_false_r. reflexivity. }
  rewrite !andb_true_r.
  assert (Hlt : i < 32).
  { destruct (Z.lt_ge_cases i 32) as [|Hge]; [assumption|].
    apply Hhigh in Hge. congruence. }
  clear Hn Hhigh Hsh E.
  destruct (Z.ltb_spec i 8); [rewrite !orb_true_r; reflexivity|].
  rewrite orb_false_r.
  destruct (Z.ltb_spec i (8 + 8)).
  { destruct (Z.leb_spec 8 i); [|lia]. rewrite !orb_true_r. reflexivity. }
  rewrite andb_false_r, orb_false_r.
  destruct (Z.ltb_spec i (16 + 8)).
  { destruct (Z.leb_spec 16 i); [|lia]. rewrite !orb_true_r. reflexivity. }
  rewrite andb_false_r, orb_false_r.
  destruct (Z.leb_spec 24 i); [|lia].
  destruct (Z.ltb_spec i (24 + 8)); [reflexivity|lia].
Qed.

Lemma be32_range (a b c d : byte) : 0 <= be32 a b c d.
Proof.
  unfold be32.
  pose proof (byte_to_Z_range a). pose proof (byte_to_Z_range b).
  pose proof (byte_to_Z_range c). pose proof (byte_to_Z_range d).
  rewrite !Z.lor_nonneg, !Z.shiftl_nonneg. lia.
Qed.

(** ** Slices at non-negative bounds *)

Lemma len_nonneg {A : Type} (s : list A) : 0 <= len s.
Proof. unfold len. lia. Qed.

Lemma len_app {A : Type} (s t : list A) : len (s ++ t) = len s + len t.
Proof. unfold len. rewrite length_app. lia. Qed.

Lemma len_slice_from {A : Type} (s : list A) (i : Z) :
  0 <= i -> len (slice_from s i) = Z.max (len s - i) 0.
Proof.
  intros Hi. unfold slice_from, clamp_index.
  destruct (Z.ltb_spec i 0); [lia|].
  unfold len. rewrite length_skipn. lia.
Qed.

Lemma slice_from_app {A : Type} (s t : list A) :
  slice_from (s ++ t) (len s) = t.
Proof.
  unfold slice_from, clamp_index. pose proof (len_nonneg s).
  destruct (Z.ltb_spec (len s) 0); [lia|].
  rewrite len_app, Z.min_l by (pose proof (len_nonneg t); lia).
  unfold len. rewrite Nat2Z.id.
  rewrite skipn_app, skipn_all, Nat.sub_diag. reflexivity.
Qed.



Lemma slice_app_firstn {A : Type} (s t : list A) (n : Z) :
  0 <= n ->
  slice (s ++ t) (len s) (len s + n) = firstn (Z.to_nat n) t.
Proof.
  intros Hn. unfold slice, clamp_index.
  pose proof (len_nonneg s). pose proof (len_nonneg t).
  destruct (Z.ltb_spec (len s) 0); [lia|].
  destruct (Z.ltb_spec (len s + n) 0); [lia|].
  rewrite len_app, (Z.min_l (len s)) by lia.
  replace (Z.to_nat (len s)) with (length s) by (unfold len; lia).
  rewrite skipn_app, skipn_all, Nat.sub_diag. simpl.
  destruct (Z.le_gt_cases n (len t)).
  - f_equal. lia.
  - rewrite Z.min_r by lia.
    rewrite !firstn_all2; [reflexivity | unfold len in *; lia ..].
Qed.

(** ** Headers *)

Lemma len_encode_header t r n : len (encode_header t r n) = 8.
Proof. destruct r as [[r1 r2] r3]. reflexivity. Qed.

Lemma unpack_from_encode_header t r n rest :
  0 <= n < 2 ^ 32 ->
  unpack_from_BxxxL (encode_header t r n ++ rest) = Return (byte_to_Z t, n).
Proof.
  intros Hn. destruct r as [[r1 r2] r3]. simpl.
  rewrite be32_pack_L by assumption. reflexivity.
Qed.

Lemma unpack_encode_header t r n :
  0 <= n < 2 ^ 32 ->
  unpack_BxxxL (encode_header t r n) = Return (byte_to_Z t, n).
Proof.
  intros Hn. destruct r as [[r1 r2] r3]. simpl.
  rewrite be32_pack_L by assumption. reflexivity.
Qed.

Lemma unpack_from_long (b : bytes) :
  8 <= len b -> exists t n, unpack_from_BxxxL b = Return (t, n) /\ 0 <= n.
Proof.
  intros H.
  do 8 (destruct b as [|? b]; [unfold len in H; simpl in H; lia|]).
  simpl. eexists _, _. split; [reflexivity | apply be32_range].
Qed.

Lemma len_encode_frame f : len (encode_frame f) = 8 + len (payload f).
Proof. unfold encode_frame. rewrite len_app, len_encode_header. lia. Qed.

Lemma encode_frames_cons f fs :
  encode_frames (f :: fs) = encode_frame f ++ encode_frames fs.
Proof. reflexivity. Qed.

Lemma length_encode_frames fs :
  (length fs <= length (encode_frames fs))%nat.
Proof.
  induction fs as [|f fs IH]; simpl; [lia|].
  rewrite encode_frames_cons, length_app.
  pose proof (len_encode_frame f) as H. pose proof (len_nonneg (payload f)).
  unfold len in *. lia.
Qed.


(** ** Generators *)

Lemma prepend_nil g : prepend [] g = g.
Proof. destruct g. reflexivity. Qed.

Lemma prepend_app l1 l2 g : prepend (l1 ++ l2) g = prepend l1 (prepend l2 g).
Proof. unfold prepend. simpl. rewrite app_assoc. reflexivity. Qed.

Lemma act_prepend a g : act a g = prepend [a] g.
Proof. reflexivity. Qed.

Lemma yielded_of_app l1 l2 :
  yielded_of (l1 ++ l2) = yielded_of l1 ++ yielded_of l2.
Proof.
  induction l1 as [|a l1 IH]; simpl; [reflexivity|].
  destruct a; simpl; rewrite IH; reflexivity.
Qed.

Lemma yielded_of_emits chunks : yielded_of (emits chunks) = map Bytes chunks.
Proof.
  induction chunks as [|c chunks IH]; simpl; [reflexivity|].
  rewrite IH. reflexivity.
Qed.

Lemma raw_of_Bytes chunks : map raw_of (map Bytes chunks) = chunks.
Proof. rewrite map_map. simpl. apply map_id. Qed.

(** ** The buffered loop, one frame at a time *)

Lemma buffer_loop_stop fuel buf walker :
  0 <= walker -> len buf - walker < 8 ->
  buffer_loop (S fuel) buf walker = finished Stop.
Proof.
  intros Hw Hlt. cbn [buffer_loop]. rewrite len_slice_from by assumption.
  destruct (Z.ltb_spec (Z.max (len buf - walker) 0) 8); [reflexivity | lia].
Qed.

Lemma buffer_loop_header fuel pre t r n rest :
  0 <= n < 2 ^ 32 ->
  buffer_loop (S fuel) (pre ++ encode_header t r n ++ rest) (len pre)
  = act (Emit (Bytes (firstn (Z.to_nat n) rest)))
      (buffer_loop fuel (pre ++ encode_header t r n ++ rest)
         (len pre + 8 + n)).
Proof.
  intros Hn. cbn [buffer_loop]. rewrite slice_from_app.
  rewrite len_app, len_encode_header.
  pose proof (len_nonneg rest).
  destruct (Z.ltb_spec (8 + len rest) 8); [lia|].
  rewrite unpack_from_encode_header by assumption.
  unfold STREAM_HEADER_SIZE_BYTES.
  rewrite app_assoc.
  replace (len pre + 8) with (len (pre ++ encode_header t r n))
    by (rewrite len_app, len_encode_header; reflexivity).
  rewrite slice_app_firstn by lia. reflexivity.
Qed.

Lemma buffer_loop_frames fs : forall pre tail k,
  Forall frame_ok fs ->
  buffer_loop (length fs + k) (pre ++ encode_frames fs ++ tail) (len pre)
  = prepend (emits (map payload fs))
      (buffer_loop k (pre ++ encode_frames fs ++ tail)
         (len pre + len (encode_frames fs))).
Proof.
  induction fs as [|f fs IH]; intros pre tail k Hok.
  - simpl. rewrite prepend_nil. f_equal. unfold len. simpl. lia.
  - inversion Hok as [|? ? Hf Hfs]; subst.
    rewrite encode_frames_cons. unfold encode_frame at 1 3.
    rewrite <- !app_assoc. cbn [length Nat.add].
    rewrite buffer_loop_header
      by (split; [apply len_nonneg | exact Hf]).
    replace (Z.to_nat (len (payload f))) with (length (payload f))
      by (unfold len; lia).
    rewrite firstn_app, firstn_all, Nat.sub_diag. cbn [firstn].
    rewrite app_nil_r.
    replace (pre ++ encode_header (stream_type f) (reserved f)
                       (len (payload f))
                 ++ payload f ++ encode_frames fs ++ tail)
      with ((pre ++ encode_frame f) ++ encode_frames fs ++ tail)
      by (unfold encode_frame; rewrite <- !app_assoc; reflexivity).
    replace (len pre + 8 + len (payload f)) with (len (pre ++ encode_frame f))
      by (rewrite len_app, len_encode_frame; lia).
    rewrite IH by assumption.
    rewrite act_prepend, <- prepend_app. cbn [map emits app].
    unfold emits. rewrite <- (app_assoc pre). f_equal. f_equal.
    rewrite !len_app, len_encode_frame, len_encode_header. lia.
Qed.

(** ** The transport's reader *)

Lemma read_segments_spec segs : forall amt,
  let '(d, _, segs', _) := read_segments amt segs in
  d = firstn amt (concat segs) /\ concat segs' = skipn amt (concat segs).
Proof.
  induction segs as [|s rest IH]; intros amt.
  - destruct amt; simpl; auto.
  - destruct amt as [|amt]; [simpl; auto|].
    cbn [read_segments concat].
    destruct (Nat.leb_spec (length s) (S amt)) as [Hle|Hgt].
    + specialize (IH (S amt - length s)%nat).
      destruct (read_segments (S amt - length s) rest)
        as [[[d cl] segs'] eof].
      destruct IH as [Hd Hs]. split.
      * rewrite firstn_app, (firstn_all2 s) by lia. rewrite Hd. reflexivity.
      * rewrite skipn_app, (skipn_all2 s) by lia. rewrite Hs. reflexivity.
    + split.
      * rewrite firstn_app.
        replace (S amt - length s)%nat with 0%nat by lia.
        cbn [firstn]. rewrite app_nil_r. reflexivity.
      * cbn [concat]. rewrite skipn_app.
        replace (S amt - length s)%nat with 0%nat by lia. reflexivity.
Qed.

Lemma read_spec amt r :
  fst (read amt r) = firstn (Z.to_nat amt) (concat (segments r))
  /\ concat (segments (snd (read amt r)))
     = skipn (Z.to_nat amt) (concat (segments r)).
Proof.
  unfold read. pose proof (read_segments_spec (segments r) (Z.to_nat amt)) as H.
  destruct (read_segments (Z.to_nat amt) (segments r)) as [[[d cl] segs'] eof].
  exact H.
Qed.

Lemma read_prefix amt r (d rest : bytes) :
  concat (segments r) = d ++ rest -> len d = amt ->
  exists r', read amt r = (d, r') /\ concat (segments r') = rest.
Proof.
  intros Hc Hl. destruct (read_spec amt r) as [H1 H2].
  destruct (read amt r) as [d' r']. simpl in H1, H2.
  assert (Hn : Z.to_nat amt = length d) by (unfold len in Hl; lia).
  exists r'. rewrite H1, H2, Hc, Hn. split.
  - rewrite firstn_app, firstn_all, Nat.sub_diag. cbn [firstn].
    rewrite app_nil_r. reflexivity.
  - rewrite skipn_app, skipn_all, Nat.sub_diag. reflexivity.
Qed.

Lemma read_at_end amt r :
  concat (segments r) = [] -> fst (read amt r) = [].
Proof.
  intros Hc. destruct (read_spec amt r) as [H1 _].
  rewrite H1, Hc. apply firstn_nil.
Qed.

(** ** The live loop, one frame at a time *)

Lemma is_empty_false {A : Type} (s : list A) : s <> [] -> is_empty s = false.
Proof. destruct s; [congruence | reflexivity]. Qed.

Lemma encode_header_nonempty t r n : encode_header t r n <> [].
Proof. destruct r as [[r1 r2] r3]. discriminate. Qed.

Lemma stream_loop_end fuel r :
  concat (segments r) = [] ->
  response_stream_loop (S fuel) r
  = mkGen [Read STREAM_HEADER_SIZE_BYTES []] Stop.
Proof.
  intros Hc. cbn [response_stream_loop].
  pose proof (read_at_end STREAM_HEADER_SIZE_BYTES r Hc) as H.
  destruct (read STREAM_HEADER_SIZE_BYTES r) as [header r1].
  simpl in H. subst header. reflexivity.
Qed.

Lemma stream_loop_zero fuel r t rs rest :
  concat (segments r) = encode_header t rs 0 ++ rest ->
  response_stream_loop (S fuel) r
  = mkGen [Read STREAM_HEADER_SIZE_BYTES (encode_header t rs 0)] Stop.
Proof.
  intros Hc. cbn [response_stream_loop].
  destruct (read_prefix STREAM_HEADER_SIZE_BYTES r _ _ Hc)
    as (r1 & Hr & _); [apply len_encode_header|].
  rewrite Hr, (is_empty_false _ (encode_header_nonempty t rs 0)).
  rewrite unpack_encode_header by lia. reflexivity.
Qed.

Lemma stream_loop_frame fuel r f rest :
  frame_ok f -> payload f <> [] ->
  concat (segments r) = encode_frame f ++ rest ->
  exists r', concat (segments r') = rest
    /\ response_stream_loop (S fuel) r
       = prepend (frame_trace f) (response_stream_loop fuel r').
Proof.
  intros Hok Hne Hc. unfold encode_frame in Hc. rewrite <- app_assoc in Hc.
  destruct (read_prefix STREAM_HEADER_SIZE_BYTES r _ _ Hc)
    as (r1 & Hr1 & Hc1); [apply len_encode_header|].
  destruct (read_prefix (len (payload f)) r1 _ _ Hc1)
    as (r2 & Hr2 & Hc2); [reflexivity|].
  exists r2. split; [assumption|].
  cbn [response_stream_loop]. rewrite Hr1.
  rewrite (is_empty_false _ (encode_header_nonempty _ _ _)).
  rewrite unpack_encode_header by (split; [apply len_nonneg | exact Hok]).
  assert (Hpos : len (payload f) <> 0).
  { destruct (payload f); [congruence | unfold len; simpl; lia]. }
  destruct (Z.eqb_spec (len (payload f)) 0); [contradiction|].
  rewrite Hr2, (is_empty_false _ Hne). reflexivity.
Qed.

Lemma stream_loop_frames fs : forall r rest k,
  Forall frame_ok fs -> Forall nonempty_payload fs ->
  concat (segments r) = encode_frames fs ++ rest ->
  exists r', concat (segments r') = rest
    /\ response_stream_loop (length fs + k) r
       = prepend (live_trace fs) (response_stream_loop k r').
Proof.
  induction fs as [|f fs IH]; intros r rest k Hok Hne Hc.
  - exists r. split; [assumption|]. simpl. rewrite prepend_nil. reflexivity.
  - inversion Hok as [|? ? Hf Hfs]; subst.
    inversion Hne as [|? ? Hnf Hnfs]; subst.
    rewrite encode_frames_cons, <- app_assoc in Hc.
    destruct (stream_loop_frame (length fs + k) r f _ Hf Hnf Hc)
      as (r1 & Hc1 & Hstep).
    destruct (IH r1 rest k Hfs Hnfs Hc1) as (r' & Hc' & Hrest).
    exists r'. split; [assumption|].
    cbn [length Nat.add]. rewrite Hstep, Hrest.
    rewrite <- prepend_app. reflexivity.
Qed.

Lemma yielded_of_live_trace fs :
  yielded_of (live_trace fs) = map Bytes (map payload fs).
Proof.
  induction fs as [|f fs IH]; simpl; [reflexivity|].
  rewrite IH. reflexivity.
Qed.

(** The live loop on a stream that is a sequence of frames: it yields the
    payloads up to the first empty one. *)
Lemma stream_loop_general fs : forall r k,
  Forall frame_ok fs ->
  concat (segments r) = encode_frames fs ->
  (length fs < k)%nat ->
  yielded (response_stream_loop k r)
    = map Bytes (until_empty (map payload fs))
  /\ ending_of (response_stream_loop k r) = Stop.
Proof.
  induction fs as [|f fs IH]; intros r k Hok Hc Hk.
  - destruct k as [|k]; [lia|].
    rewrite stream_loop_end by assumption. split; reflexivity.
  - destruct k as [|k]; [simpl in Hk; lia|].
    inversion Hok as [|? ? Hf Hfs]; subst.
    rewrite encode_frames_cons in Hc.
    destruct (payload f) as [|b p] eqn:Hp.
    + unfold encode_frame in Hc. rewrite Hp, app_nil_r in Hc.
      change (len []) with 0 in Hc.
      rewrite <- (app_nil_r (encode_header _ _ 0)) in Hc.
      rewrite <- app_assoc in Hc.
      rewrite (stream_loop_zero k r _ _ _ Hc). simpl. rewrite Hp.
      split; reflexivity.
    + assert (Hne : payload f <> []) by congruence.
      destruct (stream_loop_frame k r f _ Hf Hne Hc) as (r1 & Hc1 & Hstep).
      destruct (IH r1 k Hfs Hc1) as [Hy He]; [simpl in Hk; lia|].
      rewrite Hstep. unfold yielded in *. cbn [prepend actions ending_of].
      rewrite yielded_of_app, Hy. unfold frame_trace.
      cbn [map until_empty yielded_of]. rewrite Hp.
      cbn [is_empty]. split; [reflexivity | assumption].
Qed.

(** ** The buffered helper *)


Lemma buffer_loop_step fuel buf walker t n :
  8 <= len (slice_from buf walker) ->
  unpack_from_BxxxL (slice_from buf walker) = Return (t, n) ->
  buffer_loop (S fuel) buf walker
  = act (Emit (Bytes (slice buf (walker + 8) (walker + 8 + n))))
      (buffer_loop fuel buf (walker + 8 + n)).
Proof.
  intros Hl Hu. cbn [buffer_loop].
  destruct (Z.ltb_spec (len (slice_from buf walker)) 8); [lia|].
  rewrite Hu. reflexivity.
Qed.

Lemma buffer_helper_frames response fs tail :
  Forall frame_ok fs ->
  _result response false true = Return (Bytes (encode_frames fs ++ tail)) ->
  exists k, (length tail <= k)%nat
    /\ _multiplexed_buffer_helper response
       = prepend (emits (map payload fs))
           (buffer_loop (S k) (encode_frames fs ++ tail)
              (len (encode_frames fs))).
Proof.
  intros Hok Hr. unfold _multiplexed_buffer_helper. rewrite Hr.
  cbn [raw_of].
  exists (length (encode_frames fs ++ tail) - length fs)%nat.
  pose proof (length_encode_frames fs) as Hl.
  rewrite length_app in *. split; [lia|].
  replace (S (length (encode_frames fs) + length tail))
    with (length fs
          + S (length (encode_frames fs) + length tail - length fs))%nat
    by lia.
  apply (buffer_loop_frames fs [] tail). assumption.
Qed.

Lemma buffer_helper_exact response fs :
  Forall frame_ok fs ->
  _result response false true = Return (Bytes (encode_frames fs)) ->
  _multiplexed_buffer_helper response = mkGen (emits (map payload fs)) Stop.
Proof.
  intros Hok Hr. rewrite <- (app_nil_r (encode_frames fs)) in Hr.
  destruct (buffer_helper_frames response fs [] Hok Hr) as (k & _ & H).
  rewrite H, buffer_loop_stop.
  - unfold prepend. simpl. rewrite app_nil_r. reflexivity.
  - apply len_nonneg.
  - rewrite app_nil_r. lia.
Qed.

Lemma join_all_emits chunks :
  join_all (mkGen (emits chunks) Stop) = Value (Bytes (concat chunks)).
Proof.
  unfold join_all, yielded. simpl.
  rewrite yielded_of_emits, raw_of_Bytes. reflexivity.
Qed.

(** ** Termination of the buffered loop *)

Lemma ending_of_act a g : ending_of (act a g) = ending_of g.
Proof. reflexivity. Qed.

Lemma buffer_loop_terminates k : forall buf walker,
  0 <= walker ->
  Z.max (len buf - walker) 0 < 8 * Z.of_nat k ->
  exists chunks,
    buffer_loop k buf walker = mkGen (emits chunks) Stop
    /\ (length chunks < k)%nat.
Proof.
  induction k as [|k IH]; intros buf walker Hw Hlt; [lia|].
  destruct (Z.lt_ge_cases (len (slice_from buf walker)) 8) as [Hs|Hs].
  - exists []. split; [|simpl; lia].
    rewrite len_slice_from in Hs by assumption.
    apply buffer_loop_stop; lia.
  - destruct (unpack_from_long _ Hs) as (t & n & Hu & Hn).
    rewrite (buffer_loop_step k buf walker t n Hs Hu).
    rewrite len_slice_from in Hs by assumption.
    destruct (IH buf (walker + 8 + n)) as (chunks & Hc & Hlen); [lia..|].
    exists (slice buf (walker + 8) (walker + 8 + n) :: chunks).
    rewrite Hc. split; [reflexivity | simpl; lia].
Qed.

Lemma buffer_loop_more_fuel k : forall k' buf walker,
  ending_of (buffer_loop k buf walker) <> Unfinished ->
  (k <= k')%nat ->
  buffer_loop k' buf walker = buffer_loop k buf walker.
Proof.
  induction k as [|k IH]; intros k' buf walker He Hk.
  - simpl in He. congruence.
  - destruct k' as [|k']; [lia|].
    cbn [buffer_loop] in *.
    destruct (len (slice_from buf walker) <? 8); [reflexivity|].
    destruct (unpack_from_BxxxL (slice_from buf walker)) as [[t n]|e];
      [|reflexivity].
    rewrite ending_of_act in He.
    rewrite (IH k') by (assumption || lia). reflexivity.
Qed.

Lemma div8_bound (n : nat) : Z.of_nat n < 8 * Z.of_nat (n / 8 + 1).
Proof.
  pose proof (Nat.div_mod_eq n 8) as H.
  pose proof (Nat.mod_upper_bound n 8). lia.
Qed.

Lemma slice_past_end (B T : bytes) (n : Z) :
  8 <= len T -> len T - 8 < n ->
  slice (B ++ T) (len B + 8) (len B + 8 + n) = skipn 8 T.
Proof.
  intros HT Hn.
  rewrite <- (firstn_skipn 8 T) at 1. rewrite app_assoc.
  assert (Hl : len (B ++ firstn 8 T) = len B + 8).
  { rewrite len_app. unfold len in *. rewrite length_firstn. lia. }
  rewrite <- Hl, slice_app_firstn by lia.
  apply firstn_all2. rewrite length_skipn. unfold len in *. lia.
Qed.

(** C1: the buffered demultiplexer, run on the concatenated wire encodings
    of any finite sequence of frames (tag byte, three reserved bytes, 4-byte
    big-endian length, then the payload), returns the concatenation of the
    payloads in order. *)
Theorem demultiplexBuffered_frames response fs :
  Forall frame_ok fs ->
  _result response false true = Return (Bytes (encode_frames fs)) ->
  demultiplexBuffered response = Value (Bytes (concat (map payload fs))).
Proof.
  intros Hok Hr. unfold demultiplexBuffered.
  rewrite (buffer_helper_exact response fs Hok Hr).
  apply join_all_emits.
Qed.

Lemma demultiplexBuffered_frames_witness :
  Forall frame_ok [hello; world]
  /\ _result (ok_response (encode_frames [hello; world]) []) false true
     = Return (Bytes (encode_frames [hello; world]))
  /\ demultiplexBuffered (ok_response (encode_frames [hello; world]) [])
     = Value (Bytes (concat (map payload [hello; world]))).
Proof.
  assert (H : Forall frame_ok [hello; world])
    by (repeat constructor; reflexivity).
  split; [exact H|]. split; [reflexivity|].
  apply (demultiplexBuffered_frames _ [hello; world] H). reflexivity.
Defined.

(** C4: after a valid sequence of frames, a truncated tail (a partial
    header, or a header with only part of its declared payload) raises no
    error: the buffered result is the result for the valid sequence followed
    by the payload bytes present in the tail (none for a partial header), and
    the scan stops there. *)
Theorem demultiplexBuffered_truncated rB rBT fs T avail :
  Forall frame_ok fs ->
  truncated_tail T = Some avail ->
  _result rB false true = Return (Bytes (encode_frames fs)) ->
  _result rBT false true = Return (Bytes (encode_frames fs ++ T)) ->
  exists out,
    demultiplexBuffered rB = Value (Bytes out)
    /\ demultiplexBuffered rBT = Value (Bytes (out ++ avail))
    /\ ending_of (_multiplexed_buffer_helper rBT) = Stop
    /\ avail = (if len T <? 8 then [] else skipn 8 T).
Proof.
  intros Hok HT HB HBT. exists (concat (map payload fs)).
  split.
  { unfold demultiplexBuffered. rewrite (buffer_helper_exact rB fs Hok HB).
    apply join_all_emits. }
  destruct (buffer_helper_frames rBT fs T Hok HBT) as (k & Hk & Hg).
  unfold demultiplexBuffered. rewrite Hg. clear Hg.
  unfold truncated_tail in HT.
  destruct (Z.ltb_spec (len T) 8) as [Hlt|Hge].
  - injection HT as <-.
    rewrite buffer_loop_stop
      by (rewrite ?len_app; pose proof (len_nonneg (encode_frames fs)); lia).
    unfold prepend. cbn [actions ending_of finished].
    rewrite !app_nil_r. split; [apply join_all_emits|]. split; reflexivity.
  - destruct (unpack_from_long T Hge) as (t & n & Hu & Hn).
    rewrite Hu in HT.
    destruct (Z.ltb_spec (len T - 8) n) as [Hshort|]; [|discriminate].
    injection HT as <-.
    destruct k as [|k]; [unfold len in Hge; lia|].
    rewrite (buffer_loop_step (S k) _ _ t n)
      by (rewrite slice_from_app; assumption).
    rewrite slice_past_end by assumption.
    rewrite buffer_loop_stop
      by (rewrite ?len_app; pose proof (len_nonneg (encode_frames fs)); lia).
    rewrite act_prepend, <- prepend_app.
    change (emits (map payload fs) ++ [Emit (Bytes (skipn 8 T))])
      with (emits (map payload fs) ++ emits [skipn 8 T]).
    unfold emits at 1 2. rewrite <- map_app.
    fold (emits (map payload fs ++ [skipn 8 T])).
    unfold prepend. cbn [actions ending_of finished]. rewrite app_nil_r.
    split; [|split; reflexivity].
    rewrite join_all_emits, concat_app. simpl. rewrite app_nil_r.
    reflexivity.
Qed.

Lemma demultiplexBuffered_truncated_witness :
  Forall frame_ok [hello]
  /\ truncated_tail partial_world = Some (bytes_of_string "wo"%string)
  /\ _result (ok_response (encode_frames [hello]) []) false true
     = Return (Bytes (encode_frames [hello]))
  /\ _result (ok_response (encode_frames [hello] ++ partial_world) [])
       false true
     = Return (Bytes (encode_frames [hello] ++ partial_world))
  /\ exists out,
       demultiplexBuffered (ok_response (encode_frames [hello]) [])
       = Value (Bytes out)
       /\ demultiplexBuffered
            (ok_response (encode_frames [hello] ++ partial_world) [])
          = Value (Bytes (out ++ bytes_of_string "wo"%string))
       /\ ending_of
            (_multiplexed_buffer_helper
               (ok_response (encode_frames [hello] ++ partial_world) []))
          = Stop
       /\ bytes_of_string "wo"%string
          = (if len partial_world <? 8 then [] else skipn 8 partial_world).
Proof.
  assert (H : Forall frame_ok [hello]) by (repeat constructor; reflexivity).
  split; [exact H|]. split; [reflexivity|]. split; [reflexivity|].
  split; [reflexivity|].
  apply (demultiplexBuffered_truncated _ _ [hello] partial_world
           (bytes_of_string "wo"%string) H); reflexivity.
Defined.

(** C10: the buffered demultiplexer terminates on every buffer.  One
    iteration either stops, fewer than 8 bytes being left at the cursor, or
    yields and moves the cursor forward by at least 8; so len(buf)/8 + 1
    iterations always finish the scan, with at most len(buf)/8 chunks, and
    the helper never runs out of steps, whatever the length fields say. *)
Theorem buffer_helper_terminates (buf : bytes) :
  (forall fuel walker,
      (len (slice_from buf walker) < 8
       /\ buffer_loop (S fuel) buf walker = finished Stop)
      \/ (exists chunk walker',
            walker + 8 <= walker'
            /\ buffer_loop (S fuel) buf walker
               = act (Emit (Bytes chunk)) (buffer_loop fuel buf walker')))
  /\ (exists chunks,
        buffer_loop (length buf / 8 + 1) buf 0 = mkGen (emits chunks) Stop
        /\ (length chunks <= length buf / 8)%nat
        /\ buffer_loop (S (length buf)) buf 0 = mkGen (emits chunks) Stop)
  /\ (forall response,
        ending_of (_multiplexed_buffer_helper response) <> Unfinished).
Proof.
  assert (Hterm : forall b : bytes, exists chunks,
            buffer_loop (length b / 8 + 1) b 0 = mkGen (emits chunks) Stop
            /\ (length chunks <= length b / 8)%nat
            /\ buffer_loop (S (length b)) b 0 = mkGen (emits chunks) Stop).
  { intros b.
    destruct (buffer_loop_terminates (length b / 8 + 1) b 0)
      as (chunks & Hc & Hl); [lia | |].
    { pose proof (div8_bound (length b)). unfold len. lia. }
    exists chunks. split; [assumption|]. split; [lia|].
    rewrite <- Hc. apply buffer_loop_more_fuel.
    - rewrite Hc. discriminate.
    - pose proof (Nat.Div0.div_le_upper_bound (length b) 8 (length b)).
      lia. }
  split; [|split].
  - intros fuel walker.
    destruct (Z.lt_ge_cases (len (slice_from buf walker)) 8) as [Hs|Hs].
    + left. split; [assumption|]. cbn [buffer_loop].
      destruct (Z.ltb_spec (len (slice_from buf walker)) 8); [reflexivity|lia].
    + right. destruct (unpack_from_long _ Hs) as (t & n & Hu & Hn).
      exists (slice buf (walker + 8) (walker + 8 + n)), (walker + 8 + n).
      split; [lia|]. apply (buffer_loop_step fuel buf walker t n Hs Hu).
  - apply Hterm.
  - intros response. unfold _multiplexed_buffer_helper.
    destruct (_result response false true) as [v|e]; [|discriminate].
    cbn zeta. destruct (Hterm (raw_of v)) as (chunks & _ & _ & H).
    rewrite H. discriminate.
Qed.

(** ** The live helper *)

Lemma live_helper_unfold PY3 r :
  _raise_for_status r = Return tt ->
  demultiplexLive PY3 r
  = act (SetTimeout (if PY3 then InnerSock else RawSock) None)
      (response_stream_loop (S (length (concat (segments (raw r))))) (raw r)).
Proof.
  intros Hs. unfold demultiplexLive, _multiplexed_response_stream_helper,
    _get_raw_response_socket.
  rewrite Hs. simpl bind. cbv iota. destruct PY3; reflexivity.
Qed.

Lemma stream_loop_no_settimeout fuel : forall r,
  forallb (fun a => negb (is_settimeout a))
    (actions (response_stream_loop fuel r)) = true.
Proof.
  induction fuel as [|fuel IH]; intros r; [reflexivity|].
  cbn [response_stream_loop].
  destruct (read STREAM_HEADER_SIZE_BYTES r) as [header r1].
  destruct (is_empty header); [reflexivity|].
  destruct (unpack_BxxxL header) as [[t n]|e]; [|reflexivity].
  destruct (n =? 0); [reflexivity|].
  destruct (read n r1) as [data r2].
  destruct (is_empty data); [reflexivity|].
  simpl. apply IH.
Qed.

Lemma stream_loop_first_read fuel r :
  exists header rest,
    actions (response_stream_loop (S fuel) r)
    = Read STREAM_HEADER_SIZE_BYTES header :: rest.
Proof.
  cbn [response_stream_loop].
  destruct (read STREAM_HEADER_SIZE_BYTES r) as [header r1].
  eexists _, _. reflexivity.
Qed.

Lemma until_empty_nonempty fs :
  Forall nonempty_payload fs ->
  until_empty (map payload fs) = map payload fs.
Proof.
  induction 1 as [|f fs Hf _ IH]; simpl; [reflexivity|].
  rewrite (is_empty_false _ Hf), IH. reflexivity.
Qed.

Lemma until_empty_app fs z gs :
  Forall nonempty_payload fs -> payload z = [] ->
  until_empty (map payload (fs ++ z :: gs)) = map payload fs.
Proof.
  intros Hne Hz. induction Hne as [|f fs Hf _ IH]; simpl.
  - rewrite Hz. reflexivity.
  - rewrite (is_empty_false _ Hf), IH. reflexivity.
Qed.

Lemma live_helper_general PY3 r fs :
  Forall frame_ok fs ->
  _raise_for_status r = Return tt ->
  concat (segments (raw r)) = encode_frames fs ->
  yielded (demultiplexLive PY3 r) = map Bytes (until_empty (map payload fs))
  /\ ending_of (demultiplexLive PY3 r) = Stop.
Proof.
  intros Hok Hs Hc. rewrite (live_helper_unfold PY3 r Hs).
  destruct (stream_loop_general fs (raw r)
              (S (length (concat (segments (raw r))))) Hok Hc) as [Hy He].
  - rewrite Hc. pose proof (length_encode_frames fs). lia.
  - split; [exact Hy | exact He].
Qed.

(** The live loop never uses up its steps: every round that goes on has
    taken a header and at least one payload byte from the connection. *)
Lemma stream_loop_terminates k : forall r,
  (length (concat (segments r)) < k)%nat ->
  ending_of (response_stream_loop k r) <> Unfinished.
Proof.
  induction k as [|k IH]; intros r Hk; [lia|].
  cbn [response_stream_loop].
  destruct (read_spec STREAM_HEADER_SIZE_BYTES r) as [_ H1].
  destruct (read STREAM_HEADER_SIZE_BYTES r) as [header r1].
  cbn [snd] in H1. rewrite ending_of_act.
  destruct (is_empty header); [discriminate|].
  destruct (unpack_BxxxL header) as [[t n]|e]; [|discriminate].
  destruct (n =? 0); [discriminate|].
  destruct (read_spec n r1) as [H2 H3].
  destruct (read n r1) as [data r2]. cbn [fst snd] in H2, H3.
  rewrite ending_of_act.
  destruct data as [|b data]; [discriminate|].
  cbn [is_empty]. rewrite ending_of_act. apply IH.
  assert (Hd : (1 <= length (firstn (Z.to_nat n) (concat (segments r1))))%nat)
    by (rewrite <- H2; simpl; lia).
  rewrite length_firstn in Hd.
  rewrite H3, length_skipn, H1, length_skipn.
  rewrite H1, length_skipn in Hd. lia.
Qed.

Lemma demultiplexLive_finishes PY3 r :
  ending_of (demultiplexLive PY3 r) <> Unfinished.
Proof.
  unfold demultiplexLive, _multiplexed_response_stream_helper.
  destruct (_get_raw_response_socket r); [|discriminate].
  rewrite ending_of_act. apply stream_loop_terminates. lia.
Qed.

(** The scenarios of the specification. *)
Example scenario_hello_world :
  demultiplexBuffered (ok_response (encode_frames [hello; world]) [])
  = Value (Bytes (bytes_of_string "hello world"%string)).
Proof. reflexivity. Qed.

Example scenario_abcde :
  _multiplexed_buffer_helper
    (ok_response
       [x01; x00; x00; x00; x00; x00; x00; x05; x61; x62; x63; x64; x65] [])
  = mkGen [Emit (Bytes (bytes_of_string "abcde"%string))] Stop.
Proof. reflexivity. Qed.

Example scenario_empty_body :
  demultiplexBuffered (ok_response [] []) = Value (Bytes [])
  /\ demultiplexLive true (ok_response [] [])
     = mkGen [SetTimeout InnerSock None; Read 8 []] Stop.
Proof. split; reflexivity. Qed.

Example scenario_compare_version :
  compare_version "1.9"%string "1.10"%string = Return 1
  /\ compare_version "1.10"%string "1.9"%string = Return (-1)
  /\ compare_version "1.6"%string "1.6.0"%string = Return 0.
Proof. repeat split. Qed.

(** A header cut short on a live connection is not absorbed: [struct.unpack]
    raises. *)
Example live_partial_header_raises :
  demultiplexLive true (ok_response [] [[x01; x00; x00]])
  = mkGen [SetTimeout InnerSock None; Read 8 [x01; x00; x00]]
      (Raised StructError).
Proof. reflexivity. Qed.

(** C2: for frames that all carry a payload, the live demultiplexer, fed the
    encoded bytes through a connection that delivers them cut at arbitrary
    positions, yields the same ordered chunks as the buffered demultiplexer
    does from the whole buffer. *)
Theorem demultiplexLive_matches_buffered PY3 rl rb fs :
  Forall frame_ok fs -> Forall nonempty_payload fs ->
  _raise_for_status rl = Return tt ->
  concat (segments (raw rl)) = encode_frames fs ->
  _result rb false true = Return (Bytes (encode_frames fs)) ->
  yielded (demultiplexLive PY3 rl) = yielded (_multiplexed_buffer_helper rb)
  /\ yielded (demultiplexLive PY3 rl) = map Bytes (map payload fs)
  /\ ending_of (demultiplexLive PY3 rl) = Stop
  /\ ending_of (_multiplexed_buffer_helper rb) = Stop.
Proof.
  intros Hok Hne Hs Hc Hr.
  destruct (live_helper_general PY3 rl fs Hok Hs Hc) as [Hy He].
  rewrite until_empty_nonempty in Hy by assumption.
  rewrite (buffer_helper_exact rb fs Hok Hr). unfold yielded at 2.
  cbn [actions ending_of]. rewrite yielded_of_emits. auto.
Qed.

Lemma demultiplexLive_matches_buffered_witness :
  Forall frame_ok [hello; world] /\ Forall nonempty_payload [hello; world]
  /\ _raise_for_status (ok_response [] hello_world_segments) = Return tt
  /\ concat (segments (raw (ok_response [] hello_world_segments)))
     = encode_frames [hello; world]
  /\ _result (ok_response (encode_frames [hello; world]) []) false true
     = Return (Bytes (encode_frames [hello; world]))
  /\ yielded (demultiplexLive true (ok_response [] hello_world_segments))
     = yielded (_multiplexed_buffer_helper
                  (ok_response (encode_frames [hello; world]) []))
  /\ yielded (demultiplexLive true (ok_response [] hello_world_segments))
     = map Bytes (map payload [hello; world])
  /\ ending_of (demultiplexLive true (ok_response [] hello_world_segments))
     = Stop
  /\ ending_of (_multiplexed_buffer_helper
                  (ok_response (encode_frames [hello; world]) [])) = Stop.
Proof.
  assert (H : Forall frame_ok [hello; world])
    by (repeat constructor; reflexivity).
  assert (N : Forall nonempty_payload [hello; world])
    by (repeat constructor; discriminate).
  split; [exact H|]. split; [exact N|]. split; [reflexivity|].
  split; [reflexivity|]. split; [reflexivity|].
  apply (demultiplexLive_matches_buffered true _ _ [hello; world] H N);
    reflexivity.
Defined.

(** C3: once the live demultiplexer has read a header whose declared length
    is 0 it ends the sequence at once: after the chunks of the frames before
    it nothing more is read or yielded, whatever follows on the connection. *)
Theorem demultiplexLive_stops_at_zero PY3 r fs t rs rest :
  Forall frame_ok fs -> Forall nonempty_payload fs ->
  _raise_for_status r = Return tt ->
  concat (segments (raw r))
  = encode_frames fs ++ encode_header t rs 0 ++ rest ->
  demultiplexLive PY3 r
  = mkGen
      (SetTimeout (if PY3 then InnerSock else RawSock) None
       :: live_trace fs
       ++ [Read STREAM_HEADER_SIZE_BYTES (encode_header t rs 0)])
      Stop
  /\ yielded (demultiplexLive PY3 r) = map Bytes (map payload fs).
Proof.
  intros Hok Hne Hs Hc.
  assert (Hg : demultiplexLive PY3 r
               = mkGen
                   (SetTimeout (if PY3 then InnerSock else RawSock) None
                    :: live_trace fs
                    ++ [Read STREAM_HEADER_SIZE_BYTES (encode_header t rs 0)])
                   Stop).
  { rewrite (live_helper_unfold PY3 r Hs).
    pose proof (length_encode_frames fs) as Hl.
    replace (S (length (concat (segments (raw r)))))
      with (length fs + S (length (concat (segments (raw r))) - length fs))%nat
      by (rewrite Hc, length_app; lia).
    destruct (stream_loop_frames fs (raw r) _
                (S (length (concat (segments (raw r))) - length fs))
                Hok Hne Hc) as (r' & Hc' & Hloop).
    rewrite Hloop, (stream_loop_zero _ r' t rs rest Hc'). reflexivity. }
  split; [exact Hg|]. rewrite Hg. unfold yielded. cbn [actions yielded_of].
  rewrite yielded_of_app, yielded_of_live_trace. simpl. apply app_nil_r.
Qed.

Lemma demultiplexLive_stops_at_zero_witness :
  Forall frame_ok [hello] /\ Forall nonempty_payload [hello]
  /\ _raise_for_status (ok_response [] [terminated_stream]) = Return tt
  /\ concat (segments (raw (ok_response [] [terminated_stream])))
     = encode_frames [hello] ++ encode_header x02 (x00, x00, x00) 0
       ++ encode_frames [world]
  /\ demultiplexLive false (ok_response [] [terminated_stream])
     = mkGen
         (SetTimeout RawSock None
          :: live_trace [hello]
          ++ [Read STREAM_HEADER_SIZE_BYTES
                (encode_header x02 (x00, x00, x00) 0)])
         Stop
  /\ yielded (demultiplexLive false (ok_response [] [terminated_stream]))
     = map Bytes (map payload [hello]).
Proof.
  assert (H : Forall frame_ok [hello]) by (repeat constructor; reflexivity).
  assert (N : Forall nonempty_payload [hello])
    by (repeat constructor; discriminate).
  split; [exact H|]. split; [exact N|]. split; [reflexivity|].
  split; [reflexivity|].
  apply (demultiplexLive_stops_at_zero false _ [hello] x02 (x00, x00, x00)
           (encode_frames [world]) H N); reflexivity.
Defined.

(** C6, as stated, fails: on a streaming response with a 4xx or 5xx status
    [_get_raw_response_socket] raises [APIError] before [settimeout] is
    reached, so the timeout is set zero times, not once. *)
Lemma demultiplexLive_error_no_settimeout :
  is_http_error error_response = true
  /\ actions (demultiplexLive true error_response) = []
  /\ ending_of (demultiplexLive true error_response) = Raised APIError
  /\ ~ (exists on t rest,
          actions (demultiplexLive true error_response)
          = SetTimeout on t :: rest).
Proof.
  split; [reflexivity|]. split; [reflexivity|]. split; [reflexivity|].
  intros (on & t & rest & H). discriminate H.
Qed.

(** C6 (amended): on a streaming response that passes the status check
    (its status is not 4xx or 5xx), the first thing the live demultiplexer
    does is to set the socket's timeout to None; the read of the first
    header comes right after it, and the timeout is never set again. *)
Theorem demultiplexLive_disables_timeout PY3 r :
  _raise_for_status r = Return tt ->
  exists header rest,
    actions (demultiplexLive PY3 r)
    = SetTimeout (if PY3 then InnerSock else RawSock) None
      :: Read STREAM_HEADER_SIZE_BYTES header :: rest
    /\ forallb (fun a => negb (is_settimeout a))
         (Read STREAM_HEADER_SIZE_BYTES header :: rest) = true.
Proof.
  intros Hs. rewrite (live_helper_unfold PY3 r Hs).
  destruct (stream_loop_first_read (length (concat (segments (raw r))))
              (raw r)) as (header & rest & Ha).
  exists header, rest. cbn [act actions]. rewrite Ha. split; [reflexivity|].
  rewrite <- Ha. apply stream_loop_no_settimeout.
Qed.

Lemma demultiplexLive_disables_timeout_witness :
  _raise_for_status (ok_response [] hello_world_segments) = Return tt
  /\ exists header rest,
       actions (demultiplexLive true (ok_response [] hello_world_segments))
       = SetTimeout InnerSock None
         :: Read STREAM_HEADER_SIZE_BYTES header :: rest
       /\ forallb (fun a => negb (is_settimeout a))
            (Read STREAM_HEADER_SIZE_BYTES header :: rest) = true.
Proof.
  split; [reflexivity|].
  apply (demultiplexLive_disables_timeout true
           (ok_response [] hello_world_segments)).
  reflexivity.
Defined.

(** C9: in the buffered demultiplexer a frame of declared length 0 does not
    end the scan: it gives an empty chunk and the frames after it are still
    parsed, so their payloads are in the joined result; the live
    demultiplexer, on the same bytes, stops at that frame. *)
Theorem buffered_zero_length_continues PY3 rb rl fs1 z fs2 :
  Forall frame_ok fs1 -> Forall frame_ok fs2 ->
  Forall nonempty_payload fs1 -> payload z = [] ->
  _result rb false true = Return (Bytes (encode_frames (fs1 ++ z :: fs2))) ->
  _raise_for_status rl = Return tt ->
  concat (segments (raw rl)) = encode_frames (fs1 ++ z :: fs2) ->
  _multiplexed_buffer_helper rb
  = mkGen (emits (map payload fs1 ++ [] :: map payload fs2)) Stop
  /\ demultiplexBuffered rb
     = Value (Bytes (concat (map payload fs1) ++ concat (map payload fs2)))
  /\ yielded (demultiplexLive PY3 rl) = map Bytes (map payload fs1)
  /\ ending_of (demultiplexLive PY3 rl) = Stop.
Proof.
  intros H1 H2 Hne Hz Hr Hs Hc.
  assert (Hok : Forall frame_ok (fs1 ++ z :: fs2)).
  { apply Forall_app. split; [assumption|]. constructor; [|assumption].
    unfold frame_ok. rewrite Hz. reflexivity. }
  assert (Hp : map payload (fs1 ++ z :: fs2)
               = map payload fs1 ++ [] :: map payload fs2).
  { rewrite map_app. simpl. rewrite Hz. reflexivity. }
  split; [|split].
  - rewrite (buffer_helper_exact rb _ Hok Hr), Hp. reflexivity.
  - unfold demultiplexBuffered.
    rewrite (buffer_helper_exact rb _ Hok Hr), join_all_emits, Hp, concat_app.
    reflexivity.
  - destruct (live_helper_general PY3 rl _ Hok Hs Hc) as [Hy He].
    rewrite until_empty_app in Hy by assumption. auto.
Qed.

Lemma buffered_zero_length_continues_witness :
  Forall frame_ok [hello] /\ Forall frame_ok [world]
  /\ Forall nonempty_payload [hello] /\ payload terminator = []
  /\ _result (ok_response terminated_stream []) false true
     = Return (Bytes (encode_frames ([hello] ++ terminator :: [world])))
  /\ _raise_for_status (ok_response [] [terminated_stream]) = Return tt
  /\ concat (segments (raw (ok_response [] [terminated_stream])))
     = encode_frames ([hello] ++ terminator :: [world])
  /\ _multiplexed_buffer_helper (ok_response terminated_stream [])
     = mkGen (emits (map payload [hello] ++ [] :: map payload [world])) Stop
  /\ demultiplexBuffered (ok_response terminated_stream [])
     = Value (Bytes (concat (map payload [hello])
                     ++ concat (map payload [world])))
  /\ yielded (demultiplexLive true (ok_response [] [terminated_stream]))
     = map Bytes (map payload [hello])
  /\ ending_of (demultiplexLive true (ok_response [] [terminated_stream]))
     = Stop.
Proof.
  assert (H1 : Forall frame_ok [hello]) by (repeat constructor; reflexivity).
  assert (H2 : Forall frame_ok [world]) by (repeat constructor; reflexivity).
  assert (N : Forall nonempty_payload [hello])
    by (repeat constructor; discriminate).
  split; [exact H1|]. split; [exact H2|]. split; [exact N|].
  split; [reflexivity|]. split; [reflexivity|]. split; [reflexivity|].
  split; [reflexivity|].
  apply (buffered_zero_length_continues true _ _ [hello] terminator [world]
           H1 H2 N); reflexivity.
Defined.

(** ** The chunked raw reader *)

(** C7, as stated, fails: a response that is not chunked and carries an error
    status yields nothing, [_result] raises [APIError] instead. *)
Lemma rawChunkedIterate_error_response :
  chunked error_response = false
  /\ yielded (rawChunkedIterate error_response) = []
  /\ ending_of (rawChunkedIterate error_response) = Raised APIError.
Proof. repeat split. Qed.

(** C7 (amended): on a response that is not chunked, the chunked raw reader
    yields exactly one element, the materialized body as text, when the
    status is not an HTTP error; when it is, it yields nothing and raises
    [APIError]. *)
Theorem rawChunkedIterate_not_chunked r :
  chunked r = false ->
  rawChunkedIterate r
  = if is_http_error r then finished (Raised APIError)
    else mkGen [Emit (Text (content r))] Stop.
Proof.
  intros Hc. unfold rawChunkedIterate, _stream_helper. rewrite Hc.
  unfold _result, _raise_for_status. simpl.
  destruct (is_http_error r); reflexivity.
Qed.

Lemma rawChunkedIterate_not_chunked_witness :
  chunked (ok_response text_body []) = false
  /\ rawChunkedIterate (ok_response text_body [])
     = mkGen [Emit (Text text_body)] Stop.
Proof.
  split; [reflexivity|].
  apply (rawChunkedIterate_not_chunked (ok_response text_body [])).
  reflexivity.
Defined.

(** ** Versions and [attach] *)

Lemma version_compare_antisym a : forall b,
  Version.compare b a = CompOpp (Version.compare a b).
Proof.
  induction a as [|x a IH]; intros [|y b]; cbn [Version.compare].
  - reflexivity.
  - destruct (Version.all_zero (y :: b)); reflexivity.
  - destruct (Version.all_zero (x :: a)); reflexivity.
  - rewrite (N.compare_antisym x y).
    destruct (x ?= y)%N; cbn [CompOpp]; auto.
Qed.




(** ** The channel tag *)

(** C8, as stated, fails: two frames that differ in their channel tag only
    give the same buffered result and the same live chunks, so the tag is not
    in what the caller gets. *)
Lemma channel_tag_not_retained :
  stream_type hello <> stream_type hello_stderr
  /\ _multiplexed_buffer_helper (ok_response (encode_frames [hello]) [])
     = _multiplexed_buffer_helper
         (ok_response (encode_frames [hello_stderr]) [])
  /\ demultiplexBuffered (ok_response (encode_frames [hello]) [])
     = demultiplexBuffered (ok_response (encode_frames [hello_stderr]) [])
  /\ yielded (demultiplexLive true (ok_response [] [encode_frames [hello]]))
     = yielded
         (demultiplexLive true
            (ok_response [] [encode_frames [hello_stderr]])).
Proof.
  split; [discriminate|]. repeat split.
Qed.

(** C8 (amended): the channel tag is read with the header and dropped; what
    the buffered and the live demultiplexer give to the caller depends on the
    payloads only, not on the tags or the reserved bytes of the frames. *)
Theorem demultiplex_ignores_tags PY3 fs gs rb rb' rl rl' :
  Forall frame_ok fs -> Forall frame_ok gs ->
  map payload fs = map payload gs ->
  _result rb false true = Return (Bytes (encode_frames fs)) ->
  _result rb' false true = Return (Bytes (encode_frames gs)) ->
  _raise_for_status rl = Return tt -> _raise_for_status rl' = Return tt ->
  concat (segments (raw rl)) = encode_frames fs ->
  concat (segments (raw rl')) = encode_frames gs ->
  _multiplexed_buffer_helper rb = _multiplexed_buffer_helper rb'
  /\ demultiplexBuffered rb = demultiplexBuffered rb'
  /\ yielded (demultiplexLive PY3 rl) = yielded (demultiplexLive PY3 rl').
Proof.
  intros Hf Hg Hp Hb Hb' Hs Hs' Hc Hc'.
  assert (E : _multiplexed_buffer_helper rb = _multiplexed_buffer_helper rb').
  { rewrite (buffer_helper_exact rb fs Hf Hb).
    rewrite (buffer_helper_exact rb' gs Hg Hb'), Hp. reflexivity. }
  split; [exact E|]. split.
  - unfold demultiplexBuffered. rewrite E. reflexivity.
  - destruct (live_helper_general PY3 rl fs Hf Hs Hc) as [Hy _].
    destruct (live_helper_general PY3 rl' gs Hg Hs' Hc') as [Hy' _].
    rewrite Hy, Hy', Hp. reflexivity.
Qed.

Lemma demultiplex_ignores_tags_witness :
  Forall frame_ok [hello] /\ Forall frame_ok [hello_stderr]
  /\ map payload [hello] = map payload [hello_stderr]
  /\ _result (ok_response (encode_frames [hello]) []) false true
     = Return (Bytes (encode_frames [hello]))
  /\ _result (ok_response (encode_frames [hello_stderr]) []) false true
     = Return (Bytes (encode_frames [hello_stderr]))
  /\ _raise_for_status (ok_response [] [encode_frames [hello]]) = Return tt
  /\ _raise_for_status (ok_response [] [encode_frames [hello_stderr]])
     = Return tt
  /\ concat (segments (raw (ok_response [] [encode_frames [hello]])))
     = encode_frames [hello]
  /\ concat (segments (raw (ok_response [] [encode_frames [hello_stderr]])))
     = encode_frames [hello_stderr]
  /\ _multiplexed_buffer_helper (ok_response (encode_frames [hello]) [])
     = _multiplexed_buffer_helper
         (ok_response (encode_frames [hello_stderr]) [])
  /\ demultiplexBuffered (ok_response (encode_frames [hello]) [])
     = demultiplexBuffered (ok_response (encode_frames [hello_stderr]) [])
  /\ yielded (demultiplexLive false (ok_response [] [encode_frames [hello]]))
     = yielded
         (demultiplexLive false
            (ok_response [] [encode_frames [hello_stderr]])).
Proof.
  assert (H1 : Forall frame_ok [hello]) by (repeat constructor; reflexivity).
  assert (H2 : Forall frame_ok [hello_stderr])
    by (repeat constructor; reflexivity).
  split; [exact H1|]. split; [exact H2|].
  do 7 (split; [reflexivity|]).
  apply (demultiplex_ignores_tags false [hello] [hello_stderr] _ _ _ _ H1 H2);
    reflexivity.
Defined.

(** * Further properties of the stream helpers *)

(** ** Truncation on a live connection *)

Lemma unpack_short (b : bytes) :
  len b < 8 -> unpack_BxxxL b = Raise StructError.
Proof.
  intros H.
  do 8 (destruct b as [|? b]; [reflexivity|]).
  unfold len in H. simpl in H. lia.
Qed.

Lemma read_short amt r (d : bytes) :
  concat (segments r) = d -> len d <= amt ->
  exists r', read amt r = (d, r') /\ concat (segments r') = [].
Proof.
  intros Hc Hl. destruct (read_spec amt r) as [H1 H2].
  destruct (read amt r) as [d' r']. simpl in H1, H2.
  exists r'. rewrite H1, H2, Hc. unfold len in Hl. split.
  - rewrite firstn_all2 by lia. reflexivity.
  - apply skipn_all2. lia.
Qed.

Lemma live_helper_after_frames PY3 r fs rest :
  Forall frame_ok fs -> Forall nonempty_payload fs ->
  _raise_for_status r = Return tt ->
  concat (segments (raw r)) = encode_frames fs ++ rest ->
  exists r' k,
    concat (segments r') = rest /\ (length rest <= k)%nat
    /\ demultiplexLive PY3 r
       = prepend
           (SetTimeout (if PY3 then InnerSock else RawSock) None
            :: live_trace fs)
           (response_stream_loop (S k) r').
Proof.
  intros Hok Hne Hs Hc. rewrite (live_helper_unfold PY3 r Hs).
  pose proof (length_encode_frames fs) as Hl.
  set (k := (length (concat (segments (raw r))) - length fs)%nat).
  replace (S (length (concat (segments (raw r)))))
    with (length fs + S k)%nat
    by (unfold k; rewrite Hc, length_app; lia).
  destruct (stream_loop_frames fs (raw r) rest (S k) Hok Hne Hc)
    as (r' & Hc' & Hloop).
  exists r', k. split; [assumption|]. split.
  - unfold k. rewrite Hc, length_app. lia.
  - rewrite Hloop. reflexivity.
Qed.

(** X1: a header cut short on a live connection is not absorbed.  After the
    chunks of the complete frames, the 1 to 7 bytes that are left are read
    as a header and [struct.unpack] raises. *)
Theorem demultiplexLive_partial_header_raises PY3 r fs T :
  Forall frame_ok fs -> Forall nonempty_payload fs ->
  _raise_for_status r = Return tt ->
  concat (segments (raw r)) = encode_frames fs ++ T ->
  T <> [] -> len T < 8 ->
  yielded (demultiplexLive PY3 r) = map Bytes (map payload fs)
  /\ ending_of (demultiplexLive PY3 r) = Raised StructError.
Proof.
  intros Hok Hne Hs Hc HT Hlen.
  destruct (live_helper_after_frames PY3 r fs T Hok Hne Hs Hc)
    as (r' & k & Hc' & _ & Hg).
  rewrite Hg. cbn [response_stream_loop].
  destruct (read_short STREAM_HEADER_SIZE_BYTES r' T Hc')
    as (r1 & Hr1 & _); [unfold STREAM_HEADER_SIZE_BYTES; lia|].
  rewrite Hr1, (is_empty_false _ HT), (unpack_short T Hlen).
  unfold yielded. cbn [prepend act actions ending_of finished].
  rewrite yielded_of_app. cbn [yielded_of].
  rewrite yielded_of_live_trace, app_nil_r. split; reflexivity.
Qed.

Lemma demultiplexLive_partial_header_raises_witness :
  Forall frame_ok [hello] /\ Forall nonempty_payload [hello]
  /\ _raise_for_status
       (ok_response [] [encode_frames [hello]; [x01; x00; x00]]) = Return tt
  /\ concat (segments (raw (ok_response []
                              [encode_frames [hello]; [x01; x00; x00]])))
     = encode_frames [hello] ++ [x01; x00; x00]
  /\ [x01; x00; x00] <> [] /\ len [x01; x00; x00] < 8
  /\ yielded (demultiplexLive true
                (ok_response [] [encode_frames [hello]; [x01; x00; x00]]))
     = map Bytes (map payload [hello])
  /\ ending_of (demultiplexLive true
                  (ok_response [] [encode_frames [hello]; [x01; x00; x00]]))
     = Raised StructError.
Proof.
  assert (H : Forall frame_ok [hello]) by (repeat constructor; reflexivity).
  assert (N : Forall nonempty_payload [hello])
    by (repeat constructor; discriminate).
  split; [exact H|]. split; [exact N|]. split; [reflexivity|].
  split; [reflexivity|]. split; [discriminate|]. split; [reflexivity|].
  apply (demultiplexLive_partial_header_raises true _ [hello]
           [x01; x00; x00] H N);
    [reflexivity | reflexivity | discriminate | reflexivity].
Defined.

(** X2: a payload cut short on a live connection raises nothing.  The bytes
    that did arrive are yielded as the last chunk, or nothing is yielded
    when none arrived, and the generator stops. *)
Theorem demultiplexLive_partial_payload PY3 r fs t rs n p :
  Forall frame_ok fs -> Forall nonempty_payload fs ->
  _raise_for_status r = Return tt ->
  concat (segments (raw r)) = encode_frames fs ++ encode_header t rs n ++ p ->
  n < 2 ^ 32 -> len p < n ->
  yielded (demultiplexLive PY3 r)
  = map Bytes (map payload fs ++ (if is_empty p then [] else [p]))
  /\ ending_of (demultiplexLive PY3 r) = Stop.
Proof.
  intros Hok Hne Hs Hc Hn Hp.
  pose proof (len_nonneg p) as Hp0.
  destruct (live_helper_after_frames PY3 r fs _ Hok Hne Hs Hc)
    as (r' & k & Hc' & Hk & Hg).
  rewrite Hg. clear Hg.
  destruct k as [|k].
  { rewrite length_app in Hk. pose proof (len_encode_header t rs n) as H8.
    unfold len in H8. lia. }
  cbn [response_stream_loop].
  destruct (read_prefix STREAM_HEADER_SIZE_BYTES r' _ _ Hc')
    as (r1 & Hr1 & Hc1); [apply len_encode_header|].
  rewrite Hr1, (is_empty_false _ (encode_header_nonempty t rs n)).
  rewrite unpack_encode_header by lia.
  destruct (Z.eqb_spec n 0); [lia|].
  destruct (read_short n r1 p Hc1) as (r2 & Hr2 & Hc2); [lia|].
  rewrite Hr2.
  unfold yielded. cbn [prepend act actions ending_of finished].
  rewrite map_app, yielded_of_app. cbn [yielded_of].
  rewrite yielded_of_live_trace.
  destruct p as [|b p]; cbn [is_empty].
  - simpl. split; reflexivity.
  - pose proof (read_at_end STREAM_HEADER_SIZE_BYTES r2 Hc2) as He.
    destruct (read STREAM_HEADER_SIZE_BYTES r2) as [h r3].
    simpl in He. subst h. simpl. split; reflexivity.
Qed.

Lemma demultiplexLive_partial_payload_witness :
  Forall frame_ok [hello] /\ Forall nonempty_payload [hello]
  /\ _raise_for_status
       (ok_response [] [encode_frames [hello]; partial_world]) = Return tt
  /\ concat (segments (raw (ok_response []
                              [encode_frames [hello]; partial_world])))
     = encode_frames [hello] ++ encode_header x01 (x00, x00, x00) 5
       ++ bytes_of_string "wo"%string
  /\ 5 < 2 ^ 32 /\ len (bytes_of_string "wo"%string) < 5
  /\ yielded (demultiplexLive true
                (ok_response [] [encode_frames [hello]; partial_world]))
     = map Bytes
         (map payload [hello]
          ++ (if is_empty (bytes_of_string "wo"%string) then []
              else [bytes_of_string "wo"%string]))
  /\ ending_of (demultiplexLive true
                  (ok_response [] [encode_frames [hello]; partial_world]))
     = Stop.
Proof.
  assert (H : Forall frame_ok [hello]) by (repeat constructor; reflexivity).
  assert (N : Forall nonempty_payload [hello])
    by (repeat constructor; discriminate).
  split; [exact H|]. split; [exact N|]. split; [reflexivity|].
  split; [reflexivity|]. split; [reflexivity|]. split; [reflexivity|].
  apply (demultiplexLive_partial_payload true _ [hello] x01 (x00, x00, x00) 5
           (bytes_of_string "wo"%string) H N); reflexivity.
Defined.

(** ** What the live generator never yields *)

Lemma stream_loop_chunks_nonempty fuel : forall r,
  Forall (fun v => exists d, v = Bytes d /\ d <> [])
    (yielded (response_stream_loop fuel r)).
Proof.
  induction fuel as [|fuel IH]; intros r; [constructor|].
  unfold yielded. cbn [response_stream_loop].
  destruct (read STREAM_HEADER_SIZE_BYTES r) as [header r1].
  cbn [act actions yielded_of].
  destruct (is_empty header); [constructor|].
  destruct (unpack_BxxxL header) as [[t n]|e]; [|constructor].
  destruct (n =? 0); [constructor|].
  destruct (read n r1) as [data r2].
  cbn [act actions yielded_of].
  destruct data as [|b data]; [constructor|].
  cbn [is_empty act actions yielded_of]. constructor.
  - exists (b :: data). split; [reflexivity | discriminate].
  - apply IH.
Qed.

(** X3: whatever arrives on the connection, every element the live
    demultiplexer yields is a non-empty byte string: an empty read ends the
    generator instead of being yielded. *)
Theorem demultiplexLive_chunks_nonempty PY3 r :
  Forall (fun v => exists d, v = Bytes d /\ d <> [])
    (yielded (demultiplexLive PY3 r)).
Proof.
  unfold demultiplexLive, _multiplexed_response_stream_helper.
  destruct (_get_raw_response_socket r); [|constructor].
  destruct PY3; apply stream_loop_chunks_nonempty.
Qed.

(** ** HTTP errors *)

(** X4: on a 4xx or 5xx response neither demultiplexer parses anything.
    The live one raises [APIError] before it touches the socket's timeout or
    reads a byte; the buffered one raises it as well, and so does the join
    over it. *)
Theorem demultiplex_http_error PY3 r :
  is_http_error r = true ->
  demultiplexLive PY3 r = finished (Raised APIError)
  /\ _multiplexed_buffer_helper r = finished (Raised APIError)
  /\ demultiplexBuffered r = Exception APIError.
Proof.
  intros He.
  unfold demultiplexLive, _multiplexed_response_stream_helper,
    _get_raw_response_socket, demultiplexBuffered,
    _multiplexed_buffer_helper, _result, _raise_for_status.
  rewrite He. repeat split.
Qed.

Lemma demultiplex_http_error_witness :
  is_http_error error_response = true
  /\ demultiplexLive true error_response = finished (Raised APIError)
  /\ _multiplexed_buffer_helper error_response = finished (Raised APIError)
  /\ demultiplexBuffered error_response = Exception APIError.
Proof.
  split; [reflexivity|].
  apply (demultiplex_http_error true error_response). reflexivity.
Defined.

(** ** The chunked raw reader on a chunked response *)

Lemma read_segments_skip_empty amt rest :
  read_segments (S amt) ([] :: rest) = read_segments (S amt) rest.
Proof.
  cbn [read_segments length Nat.leb Nat.sub app].
  destruct (read_segments (S amt) rest) as [[[d cl] segs'] eof].
  reflexivity.
Qed.

Lemma stream_helper_skip_empty fuel cl rest :
  stream_helper_loop fuel (mkReader false cl ([] :: rest))
  = stream_helper_loop fuel (mkReader false cl rest).
Proof.
  destruct fuel as [|fuel]; [reflexivity|].
  cbn [stream_helper_loop closed]. unfold read. cbn [segments closed].
  change (Z.to_nat 1) with 1%nat.
  rewrite read_segments_skip_empty. reflexivity.
Qed.

Lemma stream_helper_step fuel cl b s rest :
  exists tr,
    yielded_of tr = []
    /\ stream_helper_loop (S fuel) (mkReader false cl ((b :: s) :: rest))
       = prepend (tr ++ [Emit (Bytes (b :: s))])
           (stream_helper_loop fuel (mkReader false None rest)).
Proof.
  cbn [stream_helper_loop closed]. unfold read at 1. cbn [segments closed].
  change (Z.to_nat 1) with 1%nat.
  destruct s as [|c s].
  - exists [Read 1 [b]]. split; [reflexivity|].
    cbn [read_segments length Nat.leb Nat.sub app orb].
    destruct rest; reflexivity.
  - exists [Read 1 [b]; Read (len (b :: c :: s) - 1) (c :: s)].
    split; [reflexivity|].
    cbn [read_segments length Nat.leb firstn skipn orb is_empty chunk_left].
    assert (Hk : len (b :: c :: s) - Z.of_nat 1 = len (c :: s))
      by (unfold len; cbn [length]; lia).
    rewrite Hk.
    destruct (Z.eqb_spec (len (c :: s)) 0) as [E|_];
      [unfold len in E; cbn [length] in E; lia|].
    unfold read. cbn [segments closed].
    replace (Z.to_nat (len (c :: s))) with (S (length s))
      by (unfold len; cbn [length]; lia).
    cbn [read_segments length].
    rewrite Nat.leb_refl, Nat.sub_diag.
    replace (len (b :: c :: s) - 1) with (len (c :: s))
      by (unfold len; cbn [length]; lia).
    assert (Hr : read_segments 0 rest = ([], None, rest, false))
      by (destruct rest; reflexivity).
    rewrite Hr, app_nil_r. reflexivity.
Qed.

Lemma stream_helper_loop_chunks segs : forall fuel cl,
  (length (concat segs) < fuel)%nat ->
  yielded (stream_helper_loop fuel (mkReader false cl segs))
  = map Bytes (filter (fun s => negb (is_empty s)) segs)
  /\ ending_of (stream_helper_loop fuel (mkReader false cl segs)) = Stop.
Proof.
  induction segs as [|s rest IH]; intros fuel cl Hf.
  - destruct fuel as [|fuel]; [simpl in Hf; lia|]. split; reflexivity.
  - destruct s as [|b s].
    + rewrite stream_helper_skip_empty. apply IH. exact Hf.
    + destruct fuel as [|fuel]; [lia|].
      destruct (stream_helper_step fuel cl b s rest) as (tr & Htr & Hstep).
      rewrite Hstep. clear Hstep.
      destruct (IH fuel None) as [Hy He].
      { cbn [concat] in Hf. rewrite length_app in Hf. simpl in Hf. lia. }
      unfold yielded in *. cbn [prepend actions ending_of].
      rewrite !yielded_of_app, Htr, Hy. split; [reflexivity | exact He].
Qed.

(** X5: on a chunked response the chunked raw reader never looks at the
    status code and never raises.  It yields the non-empty chunks of the
    body, one element per chunk and in order, then stops; on a reader that
    is already closed it yields nothing. *)
Theorem rawChunkedIterate_chunked r :
  chunked r = true ->
  yielded (rawChunkedIterate r)
  = (if closed (raw r) then []
     else map Bytes (filter (fun s => negb (is_empty s)) (segments (raw r))))
  /\ ending_of (rawChunkedIterate r) = Stop.
Proof.
  intros Hc. unfold rawChunkedIterate, _stream_helper. rewrite Hc.
  destruct (raw r) as [cd cl segs]. cbn [closed segments].
  destruct cd.
  - split; reflexivity.
  - apply stream_helper_loop_chunks. lia.
Qed.

Lemma rawChunkedIterate_chunked_witness :
  chunked chunked_error_response = true
  /\ yielded (rawChunkedIterate chunked_error_response)
     = (if closed (raw chunked_error_response) then []
        else map Bytes
               (filter (fun s => negb (is_empty s))
                  (segments (raw chunked_error_response))))
  /\ ending_of (rawChunkedIterate chunked_error_response) = Stop.
Proof.
  split; [reflexivity|].
  apply (rawChunkedIterate_chunked chunked_error_response). reflexivity.
Defined.

(** ** Sizes in the buffered loop *)

Lemma len_slice {A : Type} (s : list A) (i j : Z) :
  0 <= i -> i <= j ->
  len (slice s i j) = Z.min j (len s) - Z.min i (len s).
Proof.
  intros Hi Hj. unfold slice, clamp_index. pose proof (len_nonneg s).
  destruct (Z.ltb_spec i 0); [lia|]. destruct (Z.ltb_spec j 0); [lia|].
  unfold len in *. rewrite length_firstn, length_skipn. lia.
Qed.

Lemma len_cons {A : Type} (x : A) (s : list A) : len (x :: s) = 1 + len s.
Proof. unfold len. cbn [length]. lia. Qed.

Lemma unpack_from_nonneg (b : bytes) t n :
  unpack_from_BxxxL b = Return (t, n) -> 0 <= n.
Proof.
  do 8 (destruct b as [|? b]; [discriminate|]).
  simpl. intros H. injection H as _ <-. apply be32_range.
Qed.

Lemma yielded_act_emit v g : yielded (act (Emit v) g) = v :: yielded g.
Proof. reflexivity. Qed.

Lemma buffer_loop_bound k : forall buf walker,
  0 <= walker ->
  len (concat (map raw_of (yielded (buffer_loop k buf walker))))
  + 8 * len (yielded (buffer_loop k buf walker))
  <= Z.max (len buf - walker) 0.
Proof.
  induction k as [|k IH]; intros buf walker Hw.
  - unfold len. simpl. lia.
  - cbn [buffer_loop]. rewrite len_slice_from by assumption.
    destruct (Z.ltb_spec (Z.max (len buf - walker) 0) 8) as [|Hge].
    + unfold len. simpl. lia.
    + destruct (unpack_from_BxxxL (slice_from buf walker)) as [[t n]|e] eqn:Hu.
      2: { unfold len. simpl. lia. }
      pose proof (unpack_from_nonneg _ _ _ Hu) as Hn.
      unfold STREAM_HEADER_SIZE_BYTES. rewrite yielded_act_emit.
      cbn [map concat raw_of].
      specialize (IH buf (walker + 8 + n) ltac:(lia)).
      rewrite len_app, len_slice by lia.
      rewrite len_cons. lia.
Qed.

Lemma result_binary_value response v :
  _result response false true = Return v -> v = Bytes (content response).
Proof.
  unfold _result. cbn [andb].
  destruct (_raise_for_status response) as [[]|e]; cbn [bind];
    [|discriminate].
  intros H. injection H as <-. reflexivity.
Qed.

(** X6: whatever the length fields in the buffer claim, the buffered
    demultiplexer never gives back more than it was given: the bytes of all
    the chunks, plus 8 for the header of each chunk, fit in the body. *)
Theorem buffer_helper_size_bound response :
  len (concat (map raw_of (yielded (_multiplexed_buffer_helper response))))
  + 8 * len (yielded (_multiplexed_buffer_helper response))
  <= len (content response).
Proof.
  unfold _multiplexed_buffer_helper.
  destruct (_result response false true) as [v|e] eqn:Hr.
  - apply result_binary_value in Hr. subst v. cbn [raw_of].
    pose proof (buffer_loop_bound (S (length (content response)))
                  (content response) 0 ltac:(lia)) as H.
    pose proof (len_nonneg (content response)). lia.
  - apply len_nonneg.
Qed.

(** ** Frames followed by any bytes *)

Lemma slice_from_shift {A : Type} (pre tail : list A) (w : Z) :
  0 <= w -> slice_from (pre ++ tail) (len pre + w) = slice_from tail w.
Proof.
  intros Hw. unfold slice_from, clamp_index.
  pose proof (len_nonneg pre). pose proof (len_nonneg tail).
  destruct (Z.ltb_spec (len pre + w) 0); [lia|].
  destruct (Z.ltb_spec w 0); [lia|].
  rewrite len_app.
  replace (Z.to_nat (Z.min (len pre + w) (len pre + len tail)))
    with (length pre + Z.to_nat (Z.min w (len tail)))%nat
    by (unfold len in *; lia).
  rewrite skipn_app, skipn_all2 by lia. cbn [app].
  f_equal. lia.
Qed.

Lemma slice_shift {A : Type} (pre tail : list A) (i j : Z) :
  0 <= i -> 0 <= j ->
  slice (pre ++ tail) (len pre + i) (len pre + j) = slice tail i j.
Proof.
  intros Hi Hj. unfold slice, clamp_index.
  pose proof (len_nonneg pre). pose proof (len_nonneg tail).
  destruct (Z.ltb_spec (len pre + i) 0); [lia|].
  destruct (Z.ltb_spec (len pre + j) 0); [lia|].
  destruct (Z.ltb_spec i 0); [lia|]. destruct (Z.ltb_spec j 0); [lia|].
  rewrite len_app.
  replace (Z.to_nat (Z.min (len pre + i) (len pre + len tail)))
    with (length pre + Z.to_nat (Z.min i (len tail)))%nat
    by (unfold len in *; lia).
  rewrite skipn_app, skipn_all2 by lia. cbn [app].
  f_equal; [lia | f_equal; lia].
Qed.

Lemma buffer_loop_shift k : forall pre tail w,
  0 <= w ->
  buffer_loop k (pre ++ tail) (len pre + w) = buffer_loop k tail w.
Proof.
  induction k as [|k IH]; intros pre tail w Hw; [reflexivity|].
  cbn [buffer_loop]. rewrite slice_from_shift by assumption.
  destruct (len (slice_from tail w) <? 8); [reflexivity|].
  destruct (unpack_from_BxxxL (slice_from tail w)) as [[t n]|e] eqn:Hu;
    [|reflexivity].
  pose proof (unpack_from_nonneg _ _ _ Hu) as Hn.
  unfold STREAM_HEADER_SIZE_BYTES.
  replace (len pre + w + 8) with (len pre + (w + 8)) by lia.
  replace (len pre + (w + 8) + n) with (len pre + (w + 8 + n)) by lia.
  rewrite slice_shift, IH by lia. reflexivity.
Qed.

Lemma buffer_loop_enough k (buf : bytes) :
  (length buf < k)%nat ->
  ending_of (buffer_loop k buf 0) <> Unfinished.
Proof.
  intros Hk.
  destruct (buffer_loop_terminates k buf 0) as (chunks & Hc & _);
    [lia | unfold len; lia |].
  rewrite Hc. discriminate.
Qed.

(** X7: the buffered demultiplexer is compositional.  On well-formed frames
    followed by any bytes at all, it yields the payloads of the frames and
    then exactly what it yields on those bytes alone; the joined results
    concatenate in the same way. *)
Theorem buffer_helper_frames_then_tail r r_tail fs tail :
  Forall frame_ok fs ->
  _result r false true = Return (Bytes (encode_frames fs ++ tail)) ->
  _result r_tail false true = Return (Bytes tail) ->
  _multiplexed_buffer_helper r
  = prepend (emits (map payload fs)) (_multiplexed_buffer_helper r_tail)
  /\ demultiplexBuffered r
     = match demultiplexBuffered r_tail with
       | Value v => Value (Bytes (concat (map payload fs) ++ raw_of v))
       | other => other
       end.
Proof.
  intros Hok Hr Ht.
  assert (Hg : _multiplexed_buffer_helper r
               = prepend (emits (map payload fs))
                   (_multiplexed_buffer_helper r_tail)).
  { destruct (buffer_helper_frames r fs tail Hok Hr) as (k & Hk & Hg).
    rewrite Hg. f_equal.
    unfold _multiplexed_buffer_helper. rewrite Ht. cbn [raw_of].
    rewrite <- (Z.add_0_r (len (encode_frames fs))).
    rewrite buffer_loop_shift by lia.
    apply buffer_loop_more_fuel; [apply buffer_loop_enough|]; lia. }
  split; [exact Hg|].
  unfold demultiplexBuffered. rewrite Hg.
  unfold join_all, yielded. cbn [prepend actions ending_of].
  destruct (ending_of (_multiplexed_buffer_helper r_tail)); try reflexivity.
  rewrite yielded_of_app, yielded_of_emits, map_app, concat_app, raw_of_Bytes.
  reflexivity.
Qed.

Lemma buffer_helper_frames_then_tail_witness :
  Forall frame_ok [hello]
  /\ _result (ok_response (encode_frames [hello] ++ partial_world) [])
       false true
     = Return (Bytes (encode_frames [hello] ++ partial_world))
  /\ _result (ok_response partial_world []) false true
     = Return (Bytes partial_world)
  /\ _multiplexed_buffer_helper
       (ok_response (encode_frames [hello] ++ partial_world) [])
     = prepend (emits (map payload [hello]))
         (_multiplexed_buffer_helper (ok_response partial_world []))
  /\ demultiplexBuffered
       (ok_response (encode_frames [hello] ++ partial_world) [])
     = match demultiplexBuffered (ok_response partial_world []) with
       | Value v => Value (Bytes (concat (map payload [hello]) ++ raw_of v))
       | other => other
       end.
Proof.
  assert (H : Forall frame_ok [hello]) by (repeat constructor; reflexivity).
  split; [exact H|]. split; [reflexivity|]. split; [reflexivity|].
  apply (buffer_helper_frames_then_tail _ _ [hello] partial_world H);
    reflexivity.
Defined.

(** ** The header fields *)

Lemma be32_upper (a b c d : byte) : be32 a b c d < 2 ^ 32.
Proof.
  unfold be32.
  pose proof (byte_to_Z_range a). pose proof (byte_to_Z_range b).
  pose proof (byte_to_Z_range c). pose proof (byte_to_Z_range d).
  rewrite !Z.shiftl_mul_pow2 by lia.
  assert (L : forall x y, 0 <= x -> 0 <= y -> Z.lor x y <= x + y).
  { intros x y Hx Hy. pose proof (Z.add_lor_land x y) as E.
    assert (0 <= Z.land x y) by (apply Z.land_nonneg; lia). lia. }
  assert (N : forall x y, 0 <= x -> 0 <= y -> 0 <= Z.lor x y)
    by (intros; apply Z.lor_nonneg; lia).
  set (x3 := byte_to_Z a * 2 ^ 24) in *.
  set (x2 := byte_to_Z b * 2 ^ 16) in *.
  set (x1 := byte_to_Z c * 2 ^ 8) in *.
  set (x0 := byte_to_Z d) in *.
  assert (0 <= x3 <= 255 * 2 ^ 24) by (unfold x3; lia).
  assert (0 <= x2 <= 255 * 2 ^ 16) by (unfold x2; lia).
  assert (0 <= x1 <= 255 * 2 ^ 8) by (unfold x1; lia).
  pose proof (L x1 x0 ltac:(lia) ltac:(lia)).
  pose proof (N x1 x0 ltac:(lia) ltac:(lia)).
  pose proof (L x2 (Z.lor x1 x0) ltac:(lia) ltac:(lia)).
  pose proof (N x2 (Z.lor x1 x0) ltac:(lia) ltac:(lia)).
  pose proof (L x3 (Z.lor x2 (Z.lor x1 x0)) ltac:(lia) ltac:(lia)).
  lia.
Qed.

(** X8: whatever 8 bytes stand at the cursor, the tag decoded from them is
    a byte value and the length is an unsigned 32-bit value; the length is
    never negative, so the cursor never moves backwards. *)
Theorem unpack_from_bounds (b : bytes) t n :
  unpack_from_BxxxL b = Return (t, n) ->
  0 <= t < 256 /\ 0 <= n < 2 ^ 32.
Proof.
  do 8 (destruct b as [|? b]; [discriminate|]).
  cbn [unpack_from_BxxxL]. intros H. injection H as <- <-.
  split; [apply byte_to_Z_range|].
  split; [apply be32_range | apply be32_upper].
Qed.

Lemma unpack_from_bounds_witness :
  unpack_from_BxxxL (encode_frames [hello]) = Return (1, 6)
  /\ 0 <= 1 < 256 /\ 0 <= 6 < 2 ^ 32.
Proof.
  split; [reflexivity|].
  apply (unpack_from_bounds (encode_frames [hello]) 1 6). reflexivity.
Defined.

(** * Properties of the callers *)

(** ** Dictionaries *)

Lemma dict_get_set_same {V : Type} k (v : V) d :
  dict_get k (dict_set k v d) = Some v.
Proof.
  induction d as [|[k' v'] d IH]; simpl.
  - rewrite String.eqb_refl. reflexivity.
  - destruct (String.eqb_spec k k') as [E|E]; simpl.
    + rewrite String.eqb_refl. reflexivity.
    + destruct (String.eqb_spec k k'); [contradiction | exact IH].
Qed.

Lemma dict_get_set_other {V : Type} k k' (v : V) d :
  k' <> k -> dict_get k' (dict_set k v d) = dict_get k' d.
Proof.
  intros Hne. induction d as [|[k0 v0] d IH]; simpl.
  - destruct (String.eqb_spec k' k); [contradiction | reflexivity].
  - destruct (String.eqb_spec k k0) as [E|E]; simpl.
    + subst k0. destruct (String.eqb_spec k' k); [contradiction|reflexivity].
    + destruct (String.eqb_spec k' k0); [reflexivity | exact IH].
Qed.

Lemma dict_get_none_notin {V : Type} k (d : dict V) :
  ~ In k (map fst d) -> dict_get k d = None.
Proof.
  induction d as [|[k' v] d IH]; simpl; [reflexivity|].
  intros H. destruct (String.eqb_spec k k') as [E|E].
  - exfalso. apply H. left. symmetry. exact E.
  - apply IH. intros Hin. apply H. right. exact Hin.
Qed.

Lemma dict_set_fresh {V : Type} k (v : V) d :
  ~ In k (map fst d) -> dict_set k v d = d ++ [(k, v)].
Proof.
  induction d as [|[k' v'] d IH]; simpl; [reflexivity|].
  intros H. destruct (String.eqb_spec k k') as [E|E].
  - exfalso. apply H. left. symmetry. exact E.
  - rewrite IH; [reflexivity|]. intros Hin. apply H. right. exact Hin.
Qed.

(** On a dictionary, one entry per key, the loop that builds [data2] is a
    filter. *)
Lemma without_none_fold d : forall acc,
  NoDup (map fst acc ++ map fst d) ->
  fold_left
    (fun data2 kv => if is_none (snd kv) then data2
                     else dict_set (fst kv) (snd kv) data2)
    d acc
  = acc ++ filter (fun kv => negb (is_none (snd kv))) d.
Proof.
  induction d as [|[k v] d IH]; intros acc Hnd; simpl.
  - rewrite app_nil_r. reflexivity.
  - simpl in Hnd. destruct (is_none v) eqn:Ev; simpl.
    + apply IH. apply NoDup_remove_1 in Hnd. exact Hnd.
    + rewrite dict_set_fresh.
      * rewrite IH.
        -- rewrite <- app_assoc. reflexivity.
        -- rewrite map_app. simpl. rewrite <- app_assoc. exact Hnd.
      * apply NoDup_remove_2 in Hnd. intros Hin. apply Hnd.
        apply in_or_app. left. exact Hin.
Qed.

Lemma without_none_filter d :
  NoDup (map fst d) ->
  without_none (Some d) = filter (fun kv => negb (is_none (snd kv))) d.
Proof.
  intros Hnd. unfold without_none. apply (without_none_fold d []). exact Hnd.
Qed.

Lemma dict_get_filter_some (d : dict pv) : forall k,
  NoDup (map fst d) ->
  dict_get k (filter (fun kv => negb (is_none (snd kv))) d)
  = match dict_get k d with
    | Some PNone => None
    | other => other
    end.
Proof.
  induction d as [|[k' v] d IH]; intros k Hnd; simpl; [reflexivity|].
  inversion Hnd as [|? ? Hnotin Hnd']; subst.
  destruct (String.eqb_spec k k') as [E|E].
  - subst k'. destruct v; simpl; rewrite ?String.eqb_refl; try reflexivity.
    rewrite IH by assumption.
    rewrite (dict_get_none_notin k d Hnotin). reflexivity.
  - destruct (is_none v); simpl.
    + apply IH. assumption.
    + destruct (String.eqb_spec k k'); [contradiction|]. apply IH. assumption.
Qed.

(** ** [_post_json] *)

(** X9: the dictionary that [_post_json] serialises as the body has no None
    at its top level: every key of [data] whose value is None is left out,
    and every other key keeps its value as it is (a None inside a value is
    not looked for, and stays). *)
Theorem post_json_drops_none self url d kwargs :
  NoDup (map fst d) ->
  kw_headers kwargs <> Some None ->
  exists data2 kwargs',
    (forall send,
        _post_json send self url (Some d) kwargs
        = Ok (send (mkRequest "POST" url kwargs')))
    /\ kw_data kwargs' = Some (Some (JsonDumps data2))
    /\ Forall (fun kv => snd kv <> PNone) data2
    /\ (forall k,
          dict_get k data2
          = match dict_get k d with
            | Some PNone => None
            | other => other
            end).
Proof.
  intros Hnd Hh.
  exists (filter (fun kv => negb (is_none (snd kv))) d).
  assert (Hk : exists kw,
             post_json_kwargs (Some d) kwargs = Ok kw
             /\ kw_data kw
                = Some (Some (JsonDumps
                                (filter (fun kv => negb (is_none (snd kv)))
                                   d)))).
  { unfold post_json_kwargs. rewrite (without_none_filter d Hnd).
    destruct (kw_headers kwargs) as [[h|]|] eqn:E; cbn [kw_headers];
      try rewrite E; [| contradiction |]; eexists; split; reflexivity. }
  destruct Hk as (kw & Hkw & Hdata).
  exists (_set_request_timeout self kw). split; [|split; [|split]].
  - intros send. unfold _post_json, _post. rewrite Hkw. reflexivity.
  - unfold _set_request_timeout. destruct (kw_timeout kw); exact Hdata.
  - apply Forall_forall. intros [k v] Hin. apply filter_In in Hin.
    destruct Hin as [_ Hv]. simpl in *. destruct v; discriminate.
  - intros k. apply dict_get_filter_some. exact Hnd.
Qed.

Lemma post_json_drops_none_witness :
  NoDup (map fst [("Hostname"%string, PNone);
                  ("Image"%string, PStr "busybox")])
  /\ kw_headers (mkKwargs None None None None None) <> Some None
  /\ exists data2 kwargs',
       (forall send,
           _post_json send client_1_17 "/containers/create"
             (Some [("Hostname"%string, PNone);
                    ("Image"%string, PStr "busybox")])
             (mkKwargs None None None None None)
           = Ok (send (mkRequest "POST" "/containers/create" kwargs')))
       /\ kw_data kwargs' = Some (Some (JsonDumps data2))
       /\ Forall (fun kv => snd kv <> PNone) data2
       /\ (forall k,
             dict_get k data2
             = match dict_get k [("Hostname"%string, PNone);
                                 ("Image"%string, PStr "busybox")] with
               | Some PNone => None
               | other => other
               end).
Proof.
  assert (H : NoDup (map fst [("Hostname"%string, PNone);
                              ("Image"%string, PStr "busybox")])).
  { repeat constructor; simpl; intuition discriminate. }
  split; [exact H|]. split; [discriminate|].
  apply (post_json_drops_none client_1_17 "/containers/create" _
           (mkKwargs None None None None None) H).
  discriminate.
Defined.

(** X10: the request of [_post_json] always says
    [Content-Type: application/json], whatever the caller put under that
    name, and keeps the caller's other headers; its timeout is the one the
    caller passed, None included, and the client's own only when the caller
    passed none.  Passing [headers=None] is a [TypeError]. *)
Theorem post_json_headers_timeout self url data kwargs :
  match kw_headers kwargs with
  | Some None =>
      forall send, _post_json send self url data kwargs = Err TypeError
  | given =>
      exists kwargs' h',
        (forall send,
            _post_json send self url data kwargs
            = Ok (send (mkRequest "POST" url kwargs')))
        /\ kw_headers kwargs' = Some (Some h')
        /\ dict_get "Content-Type" h' = Some "application/json"%string
        /\ (forall k,
              k <> "Content-Type"%string ->
              dict_get k h'
              = dict_get k match given with
                           | Some (Some h) => h
                           | _ => []
                           end)
        /\ kw_timeout kwargs'
           = Some match kw_timeout kwargs with
                  | Some t => t
                  | None => timeout self
                  end
        /\ kw_params kwargs' = kw_params kwargs
        /\ kw_stream kwargs' = kw_stream kwargs
  end.
Proof.
  destruct kwargs as [ps dt hd st tm].
  unfold _post_json, _post, post_json_kwargs, _set_request_timeout.
  cbn [kw_headers kw_params kw_data kw_stream kw_timeout].
  destruct hd as [[h|]|];
    cbn [kw_headers kw_params kw_data kw_stream kw_timeout].
  - destruct tm as [t|]; cbn [kw_timeout];
      eexists _, (dict_set "Content-Type"%string "application/json"%string h);
      (split; [intros send; reflexivity|]);
      (split; [reflexivity|]);
      (split; [apply dict_get_set_same|]);
      (split; [intros k Hk; apply dict_get_set_other; exact Hk|]);
      repeat split.
  - intros send. reflexivity.
  - destruct tm as [t|]; cbn [kw_timeout];
      eexists _, (dict_set "Content-Type"%string "application/json"%string []);
      (split; [intros send; reflexivity|]);
      (split; [reflexivity|]);
      (split; [apply dict_get_set_same|]);
      (split; [intros k Hk; apply dict_get_set_other; exact Hk|]);
      repeat split.
Qed.

(** ** [logs] *)

Lemma compare_version_value k kc v c :
  Version.parse k = Some kc -> Version.parse v = Some c ->
  compare_version k v
  = Return match Version.compare c kc with
           | Lt => -1
           | Eq => 0
           | Gt => 1
           end.
Proof.
  intros Hk Hv. unfold compare_version. rewrite Hk, Hv.
  rewrite (version_compare_antisym c kc).
  destruct (Version.compare c kc); reflexivity.
Qed.

Lemma version_compare_nil_r c : Version.compare c [] <> Lt.
Proof.
  destruct c as [|x c]; cbn [Version.compare Version.all_zero];
    [congruence|].
  destruct ((x =? 0)%N && Version.all_zero c); congruence.
Qed.

(** A version that is not below [1.a] is not below [1.b] when [b <= a]. *)
Lemma version_not_below_mono (a b : N) c :
  (b <= a)%N ->
  Version.compare c [1; a]%N <> Lt -> Version.compare c [1; b]%N <> Lt.
Proof.
  intros Hba. destruct c as [|x c]; [simpl; congruence|].
  cbn [Version.compare].
  destruct (N.compare_spec x 1) as [E|L|G]; try congruence.
  destruct c as [|y c]; cbn [Version.compare Version.all_zero].
  - rewrite !andb_true_r.
    destruct (N.eqb_spec a 0) as [Ea|Ea]; [|congruence].
    replace b with 0%N by lia. simpl. congruence.
  - destruct (N.compare_spec y a) as [E'|L'|G']; try congruence.
    + subst y. intros _.
      destruct (N.compare_spec a b) as [E2|L2|G2]; try congruence; [|lia].
      apply version_compare_nil_r.
    + intros _. destruct (N.compare_spec y b) as [E2|L2|G2];
        try congruence; lia.
Qed.

(** X11: whatever the API version, [logs] consumes the response of its
    request exactly as [attach] would: from 1.11 on, where it sends its own
    GET, its streaming and joined results are those [attach] computes from
    that response; below 1.11 it is [attach] on the attach request with
    [logs=True], for the container that [logs] has already unwrapped (and
    that [attach] unwraps once more). *)
Theorem logs_consumes_like_attach send format_ PY3 self container
    stdout stderr stream timestamps tail comps :
  Version.parse (_version self) = Some comps ->
  logs send format_ PY3 self container stdout stderr stream timestamps tail
  = attach PY3 (_version self)
      (send
         match Version.compare comps [1; 11]%N with
         | Lt =>
             attach_request format_ self (container_id container) stdout
               stderr stream true
         | _ =>
             logs_request format_ self container stdout stderr stream
               timestamps tail
               match Version.compare comps [1; 13]%N with
               | Lt => -1
               | Eq => 0
               | Gt => 1
               end
         end)
      stream.
Proof.
  intros Hv. unfold logs.
  rewrite (compare_version_value "1.11" [1; 11]%N _ comps eq_refl Hv).
  destruct (Version.compare comps [1; 11]%N) eqn:E11;
    cbn [Z.geb Z.compare]; try reflexivity.
  all: rewrite (compare_version_value "1.13" [1; 13]%N _ comps eq_refl Hv).
  all: assert (H6 : Version.compare comps [1; 6]%N <> Lt)
         by (apply (version_not_below_mono 11 6); [lia | congruence]).
  all: unfold attach;
       rewrite (compare_version_value "1.6" [1; 6]%N _ comps eq_refl Hv).
  all: destruct (Version.compare comps [1; 6]%N); [|congruence|];
       cbn [Z.ltb Z.compare]; destruct stream, PY3; reflexivity.
Qed.

Lemma logs_consumes_like_attach_witness :
  Version.parse (_version (mkClient "http://localhost:2375" (Some 60) "1.10"))
  = Some [1; 10]%N
  /\ logs echo_send plain_format true
       (mkClient "http://localhost:2375" (Some 60) "1.10")
       (PDict [("Id"%string, PDict [("Id"%string, PStr "c0ffee")])])
       true true false false (PStr "all")
     = attach true
         (_version (mkClient "http://localhost:2375" (Some 60) "1.10"))
         (echo_send
            match Version.compare [1; 10]%N [1; 11]%N with
            | Lt =>
                attach_request plain_format
                  (mkClient "http://localhost:2375" (Some 60) "1.10")
                  (container_id
                     (PDict [("Id"%string,
                              PDict [("Id"%string, PStr "c0ffee")])]))
                  true true false true
            | _ =>
                logs_request plain_format
                  (mkClient "http://localhost:2375" (Some 60) "1.10")
                  (PDict [("Id"%string,
                           PDict [("Id"%string, PStr "c0ffee")])])
                  true true false false (PStr "all")
                  match Version.compare [1; 10]%N [1; 13]%N with
                  | Lt => -1
                  | Eq => 0
                  | Gt => 1
                  end
            end)
         false.
Proof.
  split; [reflexivity|].
  apply (logs_consumes_like_attach echo_send plain_format true
           (mkClient "http://localhost:2375" (Some 60) "1.10")
           (PDict [("Id"%string, PDict [("Id"%string, PStr "c0ffee")])])
           true true false false (PStr "all") [1; 10]%N).
  reflexivity.
Defined.

(** Below 1.11 a container given as a dictionary inside a dictionary is
    unwrapped twice, once by [logs] and once by [attach]. *)
Example logs_unwraps_twice :
  req_url
    (attach_request plain_format
       (mkClient "http://localhost:2375" (Some 60) "1.10")
       (container_id
          (PDict [("Id"%string, PDict [("Id"%string, PStr "c0ffee")])]))
       true true false true)
  = "http://localhost:2375/v1.10/containers/c0ffee/attach"%string.
Proof. reflexivity. Qed.

(** X12: the [tail] parameter in the request of [logs] is either absent
    (API below 1.13) or it is ['all'] or the caller's own value, and then
    that value is a positive integer or True: nothing else is ever sent. *)
Theorem logs_tail_parameter format_ self container
    stdout stderr stream timestamps tail c13 :
  exists params,
    kw_params
      (req_kwargs
         (logs_request format_ self container stdout stderr stream
            timestamps tail c13))
    = Some params
    /\ match dict_get "tail" params with
       | None => c13 < 0
       | Some t =>
           0 <= c13
           /\ (t = PStr "all"
               \/ (t = tail
                   /\ ((exists z, t = PInt z /\ 0 < z) \/ t = PBool true)))
       end.
Proof.
  unfold logs_request, _set_request_timeout.
  cbn [kw_timeout kw_params req_kwargs].
  eexists. split; [reflexivity|].
  destruct (Z.geb_spec c13 0) as [Hge|Hlt].
  - rewrite dict_get_set_same. split; [lia|].
    unfold tail_is_reset.
    destruct tail as [| [|] | z | s | l | d]; cbn [negb andb];
      try (left; reflexivity).
    + right. split; [reflexivity|]. right. reflexivity.
    + destruct (Z.leb_spec z 0); [left; reflexivity|].
      right. split; [reflexivity|]. left. exists z. split; [reflexivity|lia].
    + destruct (String.eqb_spec s "all") as [->|]; left; reflexivity.
  - simpl. lia.
Qed.

(** ** The memory limit of [_container_config] *)

Lemma last_char_app s c : last_char (s ++ String c "") = Some c.
Proof.
  induction s as [|a s IH]; [reflexivity|].
  cbn [String.append last_char]. rewrite IH.
  destruct s; reflexivity.
Qed.

Lemma all_but_last_app s c : all_but_last (s ++ String c "") = s.
Proof.
  induction s as [|a s IH]; [reflexivity|].
  cbn [String.append all_but_last]. rewrite IH.
  destruct s; reflexivity.
Qed.

Lemma units_not_digit x u : units x = Some u -> isdigit x = false.
Proof.
  unfold units.
  destruct (Ascii.eqb_spec x "b"); [subst; reflexivity|].
  destruct (Ascii.eqb_spec x "k"); [subst; reflexivity|].
  destruct (Ascii.eqb_spec x "m"); [subst; reflexivity|].
  destruct (Ascii.eqb_spec x "g"); [subst; reflexivity|].
  discriminate.
Qed.

Lemma lower_digit c : isdigit c = true -> lower c = c.
Proof.
  unfold isdigit, lower. intros H.
  apply andb_true_iff in H. destruct H as [H1 H2].
  apply Nat.leb_le in H1, H2.
  destruct (Nat.leb_spec 65 (nat_of_ascii c)); [|reflexivity].
  lia.
Qed.

(** X13: a memory limit written as a number followed by one of the letters
    b, k, m, g, in either case, is that number times 1, 1024, 1024^2 or
    1024^3. *)
Theorem mem_limit_with_unit (int_ : string -> option Z) s c u n :
  units (lower c) = Some u ->
  int_ s = Some n ->
  mem_limit_config int_ (PStr (s ++ String c "")%string) = Ok (PInt (n * u)).
Proof.
  intros Hu Hn. unfold mem_limit_config.
  rewrite last_char_app, (units_not_digit _ _ Hu), all_but_last_app, Hu, Hn.
  reflexivity.
Qed.

Lemma mem_limit_with_unit_witness :
  units (lower "G") = Some (1024 * 1024 * 1024)
  /\ int_of_digits "2" = Some 2
  /\ mem_limit_config int_of_digits (PStr ("2" ++ String "G" "")%string)
     = Ok (PInt (2 * (1024 * 1024 * 1024))).
Proof.
  split; [reflexivity|]. split; [reflexivity|].
  apply (mem_limit_with_unit int_of_digits "2" "G"); reflexivity.
Defined.

(** X14: a memory limit string that ends in a digit has no unit: the whole
    string is the number, taken as bytes. *)
Theorem mem_limit_without_unit (int_ : string -> option Z) s c n :
  isdigit c = true ->
  int_ (s ++ String c "")%string = Some n ->
  mem_limit_config int_ (PStr (s ++ String c "")%string) = Ok (PInt n).
Proof.
  intros Hd Hn. unfold mem_limit_config.
  rewrite last_char_app, (lower_digit c Hd), Hd.
  change (units "b") with (Some 1). cbv iota. rewrite Hn.
  f_equal. f_equal. lia.
Qed.

Lemma mem_limit_without_unit_witness :
  isdigit "8" = true
  /\ int_of_digits ("12" ++ String "8" "")%string = Some 128
  /\ mem_limit_config int_of_digits (PStr ("12" ++ String "8" "")%string)
     = Ok (PInt 128).
Proof.
  split; [reflexivity|]. split; [reflexivity|].
  apply (mem_limit_without_unit int_of_digits "12" "8"); reflexivity.
Defined.

(** X15: for a string, the memory limit block gives an integer or raises
    [DockerException], nothing else: the [ValueError] of [int] never gets
    out, and the look-up of the unit never fails. *)
Theorem mem_limit_string_outcome (int_ : string -> option Z) s :
  match mem_limit_config int_ (PStr s) with
  | Ok (PInt _) => True
  | Ok _ => False
  | Err e => e = DockerException
  end.
Proof.
  unfold mem_limit_config.
  destruct (last_char s) as [c|]; [|exact I].
  destruct (isdigit (lower c)) eqn:Hd.
  - change (units "b") with (Some 1). cbv iota.
    destruct (int_ s); [exact I | reflexivity].
  - destruct (units (lower c)).
    + destruct (int_ (all_but_last s)); [exact I | reflexivity].
    + rewrite Hd. reflexivity.
Qed.

(** X16: a memory limit string whose last character is an ASCII character
    that is neither a digit nor one of b, k, m, g (in either case) is
    refused with [DockerException], whatever stands before it. *)
Theorem mem_limit_unknown_unit (int_ : string -> option Z) s c :
  (nat_of_ascii c < 128)%nat ->
  isdigit (lower c) = false ->
  units (lower c) = None ->
  mem_limit_config int_ (PStr (s ++ String c "")%string) = Err DockerException.
Proof.
  intros _ Hd Hu. unfold mem_limit_config.
  rewrite last_char_app, Hd, Hu, Hd. reflexivity.
Qed.

Lemma mem_limit_unknown_unit_witness :
  (nat_of_ascii "t" < 128)%nat
  /\ isdigit (lower "t") = false
  /\ units (lower "t") = None
  /\ mem_limit_config int_of_digits (PStr ("1" ++ String "t" "")%string)
     = Err DockerException.
Proof.
  assert (A : (nat_of_ascii "t" < 128)%nat) by (vm_compute; lia).
  split; [exact A|]. split; [reflexivity|]. split; [reflexivity|].
  apply (mem_limit_unknown_unit int_of_digits "1" "t" A); reflexivity.
Defined.

(** ** The image id that [build] returns *)

Lemma strip_prefix_sound p : forall s rest,
  strip_prefix p s = Some rest -> s = p ++ rest.
Proof.
  induction p as [|a p IH]; intros s rest H; simpl in H.
  - injection H as <-. reflexivity.
  - destruct s as [|b s]; [discriminate|].
    destruct (Byte.eqb a b) eqn:E; [|discriminate].
    apply Byte.byte_dec_bl in E. subst b.
    simpl. f_equal. apply IH. exact H.
Qed.

Lemma strip_prefix_app p rest : strip_prefix p (p ++ rest) = Some rest.
Proof.
  induction p as [|a p IH]; simpl; [reflexivity|].
  rewrite (Byte.byte_dec_lb eq_refl). exact IH.
Qed.

Lemma take_hex_spec s :
  exists post,
    s = take_hex s ++ post
    /\ forallb hexdigit (take_hex s) = true
    /\ match post with
       | b :: _ => hexdigit b = false
       | [] => True
       end.
Proof.
  induction s as [|b s IH]; simpl.
  - exists []. repeat split.
  - destruct (hexdigit b) eqn:E.
    + destruct IH as (post & Hs & Hall & Hpost).
      exists post. simpl. rewrite E, Hall. repeat split; [|exact Hpost].
      f_equal. exact Hs.
    + exists (b :: s). repeat split. exact E.
Qed.

Lemma match_built_sound s group1 :
  match_built s = Some group1 ->
  group1 <> []
  /\ forallb hexdigit group1 = true
  /\ exists post,
       s = built_marker ++ group1 ++ post
       /\ match post with
          | b :: _ => hexdigit b = false
          | [] => True
          end.
Proof.
  unfold match_built.
  destruct (strip_prefix built_marker s) as [rest|] eqn:Hp; [|discriminate].
  apply strip_prefix_sound in Hp.
  destruct (take_hex_spec rest) as (post & Hr & Hall & Hpost).
  destruct (take_hex rest) as [|h t] eqn:Ht; [discriminate|].
  intros H. injection H as <-.
  split; [discriminate|]. split; [exact Hall|].
  exists post. split; [|exact Hpost]. rewrite Hp, Hr. reflexivity.
Qed.

Lemma search_built_sound s : forall group1,
  search_built s = Some group1 ->
  group1 <> []
  /\ forallb hexdigit group1 = true
  /\ exists pre post,
       s = pre ++ built_marker ++ group1 ++ post
       /\ match post with
          | b :: _ => hexdigit b = false
          | [] => True
          end.
Proof.
  induction s as [|b s IH]; intros group1 H; cbn [search_built] in H.
  - destruct (match_built []) eqn:E; [|discriminate].
    injection H as <-.
    destruct (match_built_sound _ _ E) as (Hne & Hall & post & Hs & Hp).
    split; [exact Hne|]. split; [exact Hall|]. exists [], post. auto.
  - destruct (match_built (b :: s)) eqn:E.
    + injection H as <-.
      destruct (match_built_sound _ _ E) as (Hne & Hall & post & Hs & Hp).
      split; [exact Hne|]. split; [exact Hall|]. exists [], post. auto.
    + destruct (IH _ H) as (Hne & Hall & pre & post & Hs & Hp).
      split; [exact Hne|]. split; [exact Hall|].
      exists (b :: pre), post. split; [|exact Hp]. simpl. f_equal. exact Hs.
Qed.

Lemma search_built_complete pre : forall h post,
  hexdigit h = true ->
  exists group1,
    search_built (pre ++ built_marker ++ h :: post) = Some group1.
Proof.
  induction pre as [|a pre IH]; intros h post Hh.
  - cbn [app].
    assert (E : match_built (built_marker ++ h :: post)
                = Some (h :: take_hex post)).
    { unfold match_built. rewrite strip_prefix_app.
      cbn [take_hex]. rewrite Hh. reflexivity. }
    exists (h :: take_hex post).
    destruct (built_marker ++ h :: post) eqn:Eb;
      cbn [search_built]; rewrite E; reflexivity.
  - cbn [app search_built].
    destruct (match_built (a :: pre ++ built_marker ++ h :: post)) as [g|].
    + exists g. reflexivity.
    + apply IH. exact Hh.
Qed.

(** X17: the image id that [build] returns without streaming is a non-empty
    run of the characters 0-9 and a-f that stands in the output right after
    "Successfully built " and ends where the hex digits end; the output is
    returned with it, whole. *)
Theorem build_image_id response image_id output :
  build_result false response = BuildResult (Some image_id) output ->
  output = Text (content response)
  /\ image_id <> []
  /\ forallb hexdigit image_id = true
  /\ exists pre post,
       content response = pre ++ built_marker ++ image_id ++ post
       /\ match post with
          | b :: _ => hexdigit b = false
          | [] => True
          end.
Proof.
  unfold build_result, _result. cbn [andb bind].
  destruct (_raise_for_status response) as [[]|e]; cbn [bind];
    [|discriminate].
  cbn [raw_of].
  destruct (search_built (content response)) as [g|] eqn:E; [|discriminate].
  intros H. injection H as <- <-.
  split; [reflexivity|]. apply search_built_sound. exact E.
Qed.

(** X18: when the response is not an HTTP error and its body holds
    "Successfully built " followed by a hex digit anywhere, [build] without
    streaming returns an image id, never None; the output comes with it. *)
Theorem build_finds_image_id response pre h post :
  is_http_error response = false ->
  hexdigit h = true ->
  content response = pre ++ built_marker ++ h :: post ->
  exists image_id,
    build_result false response
    = BuildResult (Some image_id) (Text (content response)).
Proof.
  intros He Hh Hc. unfold build_result, _result, _raise_for_status.
  rewrite He. cbn [andb bind raw_of].
  destruct (search_built_complete pre h post Hh) as (g & Hg).
  rewrite <- Hc in Hg. rewrite Hg. exists g. reflexivity.
Qed.

Lemma build_image_id_witness :
  build_result false (ok_response build_log [])
  = BuildResult (Some (bytes_of_string "3f2a")) (Text build_log)
  /\ Text build_log = Text (content (ok_response build_log []))
  /\ bytes_of_string "3f2a" <> []
  /\ forallb hexdigit (bytes_of_string "3f2a") = true
  /\ exists pre post,
       content (ok_response build_log [])
       = pre ++ built_marker ++ bytes_of_string "3f2a" ++ post
       /\ match post with
          | b :: _ => hexdigit b = false
          | [] => True
          end.
Proof.
  split; [reflexivity|].
  apply (build_image_id (ok_response build_log [])
           (bytes_of_string "3f2a") (Text build_log)).
  reflexivity.
Defined.

Lemma build_finds_image_id_witness :
  is_http_error (ok_response build_log []) = false
  /\ hexdigit x33 = true
  /\ content (ok_response build_log [])
     = (bytes_of_string "Step 0 : FROM busybox" ++ [x0a])
       ++ built_marker ++ x33 :: (bytes_of_string "f2a" ++ [x0a])
  /\ exists image_id,
       build_result false (ok_response build_log [])
       = BuildResult (Some image_id)
           (Text (content (ok_response build_log []))).
Proof.
  split; [reflexivity|]. split; [reflexivity|]. split; [reflexivity|].
  apply (build_finds_image_id (ok_response build_log [])
           (bytes_of_string "Step 0 : FROM busybox" ++ [x0a]) x33
           (bytes_of_string "f2a" ++ [x0a])); reflexivity.
Defined.

(** ** [attach], end to end *)

(** X19: for every API version from 1.6 on, [attach] without streaming, on a
    response whose body is the encoding of a sequence of frames, returns the
    concatenation of their payloads. *)
Theorem attach_returns_payloads PY3 v comps response fs :
  Version.parse v = Some comps ->
  Version.compare comps [1; 6]%N <> Lt ->
  Forall frame_ok fs ->
  _result response false true = Return (Bytes (encode_frames fs)) ->
  attach PY3 v response false = Value (Bytes (concat (map payload fs))).
Proof.
  intros Hv Hge Hok Hr. unfold attach.
  rewrite (compare_version_value "1.6" [1; 6]%N v comps eq_refl Hv).
  destruct (Version.compare comps [1; 6]%N); [|congruence|];
    cbn [Z.ltb Z.compare];
    rewrite (buffer_helper_exact response fs Hok Hr);
    apply join_all_emits.
Qed.

Lemma attach_returns_payloads_witness :
  Version.parse "1.17" = Some [1; 17]%N
  /\ Version.compare [1; 17]%N [1; 6]%N <> Lt
  /\ Forall frame_ok [hello; world]
  /\ _result (ok_response (encode_frames [hello; world]) []) false true
     = Return (Bytes (encode_frames [hello; world]))
  /\ attach false "1.17" (ok_response (encode_frames [hello; world]) [])
       false
     = Value (Bytes (concat (map payload [hello; world]))).
Proof.
  assert (H : Forall frame_ok [hello; world])
    by (repeat constructor; reflexivity).
  split; [reflexivity|]. split; [discriminate|]. split; [exact H|].
  split; [reflexivity|].
  apply (attach_returns_payloads false "1.17" [1; 17]%N _ [hello; world]);
    [reflexivity | discriminate | exact H | reflexivity].
Defined.

(** ** The two demultiplexers on the same frames *)

(** X20: on the encoding of any sequence of frames, empty payloads
    included, the chunks of the live demultiplexer are the chunks of the
    buffered one up to, and without, the first empty chunk. *)
Theorem demultiplexLive_prefix_of_buffered PY3 rl rb fs :
  Forall frame_ok fs ->
  _raise_for_status rl = Return tt ->
  concat (segments (raw rl)) = encode_frames fs ->
  _result rb false true = Return (Bytes (encode_frames fs)) ->
  yielded (demultiplexLive PY3 rl)
  = map Bytes
      (until_empty (map raw_of (yielded (_multiplexed_buffer_helper rb)))).
Proof.
  intros Hok Hs Hc Hr.
  destruct (live_helper_general PY3 rl fs Hok Hs Hc) as [Hy _].
  rewrite Hy, (buffer_helper_exact rb fs Hok Hr).
  unfold yielded. cbn [actions]. rewrite yielded_of_emits, raw_of_Bytes.
  reflexivity.
Qed.

Lemma demultiplexLive_prefix_of_buffered_witness :
  Forall frame_ok [hello; terminator; world]
  /\ _raise_for_status (ok_response [] [terminated_stream]) = Return tt
  /\ concat (segments (raw (ok_response [] [terminated_stream])))
     = encode_frames [hello; terminator; world]
  /\ _result (ok_response terminated_stream []) false true
     = Return (Bytes (encode_frames [hello; terminator; world]))
  /\ yielded (demultiplexLive true (ok_response [] [terminated_stream]))
     = map Bytes
         (until_empty
            (map raw_of
               (yielded
                  (_multiplexed_buffer_helper
                     (ok_response terminated_stream []))))).
Proof.
  assert (H : Forall frame_ok [hello; terminator; world])
    by (repeat constructor; reflexivity).
  split; [exact H|]. split; [reflexivity|]. split; [reflexivity|].
  split; [reflexivity|].
  apply (demultiplexLive_prefix_of_buffered true _ _
           [hello; terminator; world] H); reflexivity.
Defined.

Lemma stream_loop_yield_bound fuel : forall r,
  9 * len (yielded_of (actions (response_stream_loop fuel r)))
  <= len (concat (segments r)).
Proof.
  induction fuel as [|fuel IH]; intros r; [cbn; apply len_nonneg|].
  cbn [response_stream_loop].
  destruct (read_spec STREAM_HEADER_SIZE_BYTES r) as [H0 H1].
  destruct (read STREAM_HEADER_SIZE_BYTES r) as [header r1].
  cbn [fst snd] in H0, H1. cbn [act actions yielded_of].
  destruct (is_empty header); [cbn; apply len_nonneg|].
  destruct (unpack_BxxxL header) as [[t n]|e] eqn:Hu;
    [|cbn; apply len_nonneg].
  destruct (n =? 0); [cbn; apply len_nonneg|].
  destruct (read_spec n r1) as [H2 H3].
  destruct (read n r1) as [data r2]. cbn [fst snd] in H2, H3.
  cbn [act actions yielded_of].
  destruct data as [|b data]; [cbn; apply len_nonneg|].
  cbn [is_empty act actions yielded_of]. rewrite len_cons.
  specialize (IH r2).
  assert (H8 : len header = 8).
  { destruct (Z.lt_ge_cases (len header) 8) as [Hl|Hl].
    - rewrite (unpack_short header Hl) in Hu. discriminate.
    - rewrite H0 in *. unfold len in *. rewrite length_firstn in *.
      unfold STREAM_HEADER_SIZE_BYTES in *. lia. }
  assert (Hd : (1 <= length (firstn (Z.to_nat n) (concat (segments r1))))%nat)
    by (rewrite <- H2; simpl; lia).
  rewrite length_firstn in Hd.
  rewrite H0 in H8. unfold len in H8. rewrite length_firstn in H8.
  unfold len in *. rewrite H3, length_skipn, H1, length_skipn in IH.
  rewrite H1, length_skipn in Hd.
  unfold STREAM_HEADER_SIZE_BYTES in *. lia.
Qed.

(** ** Termination of the live demultiplexer *)

(** X21: the live demultiplexer ends on every finite stream, whatever bytes
    it holds: it stops or raises, and by then it has yielded at most one
    chunk for every 9 bytes of the stream. *)
Theorem demultiplexLive_terminates PY3 r :
  ending_of (demultiplexLive PY3 r) <> Unfinished
  /\ 9 * len (yielded (demultiplexLive PY3 r))
     <= len (concat (segments (raw r))).
Proof.
  split.
  - unfold demultiplexLive, _multiplexed_response_stream_helper.
    destruct (_get_raw_response_socket r); [|discriminate].
    rewrite ending_of_act. apply stream_loop_terminates. lia.
  - unfold demultiplexLive, _multiplexed_response_stream_helper.
    destruct (_get_raw_response_socket r);
      [|cbn; apply len_nonneg].
    unfold yielded. cbn [act actions yielded_of].
    destruct PY3; cbn [yielded_of]; apply stream_loop_yield_bound.
Qed.
